(** * DynUI-Max: DynStepper and DynMenuItem

    A shallow embedding of the two components of the repository,
    [DynStepper] (step navigation) and [DynMenuItem] (menu row or divider),
    together with the properties their specification states.

    Modelling conventions.
    - A JavaScript [number] that is used as an index or a counter is an
      integer of [Z]; [<], [<=], [===], [+] and [-] are the ones of [Z].
      The argument of [goToStep], which the host chooses freely, is also
      taken as any JavaScript number ([Numbers]).
    - An optional property ([p?: T]) is an [option T]; [None] is
      [undefined].  A destructuring default ([p = d]) replaces [undefined]
      only.
    - A host callback is known by the reference of its function object
      ([FnRef]).  Calling it is the only effect the components have; a
      handler is modelled by the list of host calls it makes, or by the
      exception it throws ([Outcome]).
    - [clsx] yields the list of class tokens of the [className] attribute
      (the attribute is the tokens joined by single spaces).
    - [React.ReactNode] is a small inductive with JavaScript truthiness. *)

From Stdlib Require Import List ZArith QArith Qround Bool String Lia.
Import ListNotations.
Open Scope string_scope.
Open Scope Z_scope.

Set Implicit Arguments.

(* ================================================================= *)
(** ** JavaScript and React prelude *)

(** Reference (identity) of a function object owned by the host. *)
Definition FnRef := nat.

(** Exceptions a handler may raise. *)
Inductive JsError : Type :=
| TypeError (msg : string).

(** Result of evaluating an expression that may throw. *)
Inductive JsResult (A : Type) : Type :=
| Ok (a : A)
| Raise (e : JsError).
Arguments Ok {A} a.
Arguments Raise {A} e.

(** Result of running a handler: the host calls made, in order, or the
    exception thrown. *)
Inductive Outcome (E : Type) : Type :=
| Done (calls : list E)
| Throw (e : JsError).
Arguments Done {E} calls.
Arguments Throw {E} e.

(** [React.ReactNode]: what may be given as [icon] or [children]. *)
Inductive ReactNode : Type :=
| RUndefined
| RNull
| RBool (b : bool)
| RNumber (n : Z)
| RString (s : string)
| RElement (tag : string).

(** JavaScript truthiness, as tested by [x ? .. : ..], [x && ..],
    [!x] and [Boolean(x)]. *)
Definition truthy_node (n : ReactNode) : bool :=
  match n with
  | RUndefined | RNull => false
  | RBool b => b
  | RNumber z => negb (z =? 0)
  | RString s => negb (s =? "")%string
  | RElement _ => true
  end.

Definition truthy_flag (b : option bool) : bool :=
  match b with Some true => true | _ => false end.

Definition truthy_string (s : option string) : bool :=
  match s with Some t => negb (t =? "")%string | None => false end.

(** A destructuring default. *)
Definition default {A : Type} (d : A) (o : option A) : A :=
  match o with Some a => a | None => d end.

(** [arr[i]]: [undefined] outside the array. *)
Definition js_index {A : Type} (arr : list A) (i : Z) : option A :=
  if i <? 0 then None else nth_error arr (Z.to_nat i).

(** [arr.length]. *)
Definition js_length {A : Type} (arr : list A) : Z := Z.of_nat (List.length arr).

(** [o.f]: reading a property of [undefined] throws. *)
Definition member {A B : Type} (o : option A) (f : A -> B) : JsResult B :=
  match o with
  | Some a => Ok (f a)
  | None => Raise (TypeError "Cannot read properties of undefined")
  end.

(** [o?.f]: optional chaining yields [undefined] instead. *)
Definition opt_member {A B : Type} (o : option A) (f : A -> B)
  : JsResult (option B) :=
  match o with
  | Some a => Ok (Some (f a))
  | None => Ok None
  end.

(** [arr.map((x, index) => f x index)]. *)
Fixpoint map_from {A B : Type} (f : A -> Z -> B) (k : Z) (l : list A)
  : list B :=
  match l with
  | [] => []
  | x :: r => f x k :: map_from f (k + 1) r
  end.

Definition array_map {A B : Type} (f : A -> Z -> B) (l : list A) : list B :=
  map_from f 0 l.

(** Arguments of [clsx]: a string, a possibly undefined string, or an
    object whose keys are kept when their value is truthy.  A string is
    kept as the one entry it is: a [className] of the host that holds
    several classes is still one entry here. *)
Inductive ClassValue : Type :=
| cv_str (s : string)
| cv_opt (s : option string)
| cv_dict (d : list (string * bool)).

Definition clsx_one (v : ClassValue) : list string :=
  match v with
  | cv_str s => if (s =? "")%string then [] else [s]
  | cv_opt o => if truthy_string o then [default "" o] else []
  | cv_dict d => map fst (filter snd d)
  end.

Definition clsx (args : list ClassValue) : list string :=
  flat_map clsx_one args.

(** A keyboard event; only [key] is read. *)
Record KeyboardEvent : Type := { ev_key : string }.

(** What a key handler did: whether it called [preventDefault], and the
    outcome of the rest of its body. *)
Record KeyResult (E : Type) : Type :=
  { defaultPrevented : bool; key_outcome : Outcome E }.

(** Running an optional event handler: an absent handler does nothing. *)
Definition fire {E : Type} (h : option (Outcome E)) : Outcome E :=
  match h with Some o => o | None => Done [] end.

Definition fire_key {E : Type} (h : option (KeyboardEvent -> KeyResult E))
  (e : KeyboardEvent) : KeyResult E :=
  match h with
  | Some f => f e
  | None => {| defaultPrevented := false; key_outcome := Done [] |}
  end.

Definition is_activation_key (k : string) : bool :=
  (k =? "Enter")%string || (k =? " ")%string.

(* ================================================================= *)
(** ** DynStepper *)

Module Stepper.

(** [StepStatus]: 'pending' | 'current' | 'complete' | 'error'. *)
Inductive StepStatus : Type := Pending | Current | Complete | Error.

Definition status_name (s : StepStatus) : string :=
  match s with
  | Pending => "pending"
  | Current => "current"
  | Complete => "complete"
  | Error => "error"
  end.

Record StepData : Type :=
  { key : string;
    title : string;
    description : option string;
    status : option StepStatus;
    disabled : option bool;
    icon : ReactNode }.

Inductive Orientation : Type := horizontal | vertical.

Definition orientation_name (o : Orientation) : string :=
  match o with horizontal => "horizontal" | vertical => "vertical" end.

(** [ComponentSize] is declared by the design-tokens package; the
    component only interpolates it into a class name, so it is kept as the
    string it is. *)
Definition ComponentSize := string.

Record DynStepperProps : Type :=
  { current : Z;
    steps : list StepData;
    orientation : option Orientation;
    size : option ComponentSize;
    onChange : option FnRef;
    showNumbers : option bool;
    showConnectors : option bool;
    clickable : option bool;
    className : option string;
    data_testid : option string }.

(** A call [onChange(stepIndex, stepData)] received by the host. *)
Inductive HostCall : Type :=
| OnChange (f : FnRef) (stepIndex : Z) (stepData : StepData).

(** [onChange?.(stepIndex, stepData)]. *)
Definition call_onChange (onChange : option FnRef) (stepIndex : Z)
  (stepData : StepData) : list HostCall :=
  match onChange with
  | Some f => [OnChange f stepIndex stepData]
  | None => []
  end.

Section Closures.
(** The destructured props the closures of one render capture. *)
Variable current_ : Z.
Variable steps_ : list StepData.
Variable onChange_ : option FnRef.
Variable clickable_ : bool.

Definition handleStepClick (stepIndex : Z) (stepData : StepData)
  : Outcome HostCall :=
  if negb clickable_ || truthy_flag (disabled stepData) then Done []
  else if stepIndex <=? current_
       then Done (call_onChange onChange_ stepIndex stepData)
       else Done [].

(** The guard reads [steps[stepIndex].disabled], which throws when the
    element is [undefined]; the call then reads the same element again. *)
Definition goToStep (stepIndex : Z) : Outcome HostCall :=
  if (stepIndex >=? 0) && (stepIndex <? js_length steps_) then
    match js_index steps_ stepIndex with
    | None => Throw (TypeError "Cannot read properties of undefined")
    | Some s =>
        if negb (truthy_flag (disabled s))
        then Done (call_onChange onChange_ stepIndex s)
        else Done []
    end
  else Done [].

(** [nextStep] and [previousStep] call the [goToStep] closure in scope. *)
Definition nextStep (E : Type) (goToStep_ : Z -> Outcome E) : Outcome E :=
  if current_ <? js_length steps_ - 1 then goToStep_ (current_ + 1)
  else Done [].

Definition previousStep (E : Type) (goToStep_ : Z -> Outcome E)
  : Outcome E :=
  if current_ >? 0 then goToStep_ (current_ - 1) else Done [].

Definition getStepStatus (stepIndex : Z) (step : StepData) : StepStatus :=
  match status step with
  | Some s => s
  | None =>
      if stepIndex <? current_ then Complete
      else if stepIndex =? current_ then Current
      else Pending
  end.
End Closures.

(** The imperative handle given to the host through [ref]. *)
Record DynStepperRef : Type :=
  { ref_goToStep : Z -> Outcome HostCall;
    ref_nextStep : Outcome HostCall;
    ref_previousStep : Outcome HostCall }.

(** The content of [dyn-stepper__indicator]. *)
Inductive Indicator : Type :=
| DynIcon (name : string) (size_ : string)
| CustomIcon (node : ReactNode)
| StepNumber (n : Z)
| StepDot.

Record StepElement : Type :=
  { step_classes : list string;
    step_onClick : option (Outcome HostCall);
    step_role : option string;
    step_tabIndex : option Z;
    step_onKeyDown : option (KeyboardEvent -> KeyResult HostCall);
    step_indicator : Indicator;
    step_title : string;
    step_description : option string }.

Record Connector : Type := { connector_classes : list string }.

(** One [React.Fragment] of the track: the step and, maybe, the
    connector that follows it. *)
Record Fragment : Type :=
  { frag_key : string;
    frag_step : StepElement;
    frag_connector : option Connector }.

Record Rendered : Type :=
  { root_classes : list string;
    root_testid : option string;
    root_role : string;
    aria_valuemin : Z;
    aria_valuemax : Z;
    aria_valuenow : Z;
    aria_valuetext : option string;
    track : list Fragment }.

Section Render.
Variable props : DynStepperProps.
(** The [handleStepClick] closure in scope of the JSX. *)
Variable handleStepClick_ : Z -> StepData -> Outcome HostCall.

Let current_ := current props.
Let steps_ := steps props.
Let orientation_ := default horizontal (orientation props).
Let size_ := default "md" (size props).
Let showNumbers_ := default true (showNumbers props).
Let showConnectors_ := default true (showConnectors props).
Let clickable_ := default true (clickable props).

Definition containerClasses : list string :=
  clsx [ cv_str "dyn-stepper";
         cv_str ("dyn-stepper--" ++ orientation_name orientation_);
         cv_str ("dyn-stepper--size-" ++ size_);
         cv_dict [ ("dyn-stepper--clickable", clickable_);
                   ("dyn-stepper--with-connectors", showConnectors_) ];
         cv_opt (className props) ].

Definition isClickable (step : StepData) (index : Z) : bool :=
  clickable_ && negb (truthy_flag (disabled step)) && (index <=? current_).

Definition renderIndicator (st : StepStatus) (step : StepData) (index : Z)
  : Indicator :=
  match st with
  | Error => DynIcon "x" "sm"
  | Complete => DynIcon "check" "sm"
  | _ =>
      if truthy_node (icon step) then CustomIcon (icon step)
      else if showNumbers_ then StepNumber (index + 1)
      else StepDot
  end.

Definition renderStep (step : StepData) (index : Z) : Fragment :=
  let st := getStepStatus current_ index step in
  let isClickable_ := isClickable step index in
  {| frag_key := key step;
     frag_step :=
       {| step_classes :=
            clsx [ cv_str "dyn-stepper__step";
                   cv_str ("dyn-stepper__step--" ++ status_name st);
                   cv_dict [ ("dyn-stepper__step--clickable", isClickable_);
                             ("dyn-stepper__step--disabled",
                               truthy_flag (disabled step)) ] ];
          step_onClick :=
            if isClickable_ then Some (handleStepClick_ index step)
            else None;
          step_role := if isClickable_ then Some "button" else None;
          step_tabIndex := if isClickable_ then Some 0 else None;
          step_onKeyDown :=
            if isClickable_
            then Some (fun e =>
                   if is_activation_key (ev_key e)
                   then {| defaultPrevented := true;
                           key_outcome := handleStepClick_ index step |}
                   else {| defaultPrevented := false;
                           key_outcome := Done [] |})
            else None;
          step_indicator := renderIndicator st step index;
          step_title := title step;
          step_description :=
            if truthy_string (description step) then description step
            else None |};
     frag_connector :=
       if showConnectors_ && (index <? js_length steps_ - 1)
       then Some {| connector_classes :=
                      clsx [ cv_str "dyn-stepper__connector";
                             cv_dict [ ("dyn-stepper__connector--completed",
                                         index <? current_) ] ] |}
       else None |}.

Definition renderTrack : list Fragment := array_map renderStep steps_.

(** The root element, as the component computes it.  The rest props,
    which the JSX spreads over these attributes, are given to
    [Attributes.root_attributes]; the props type declares none. *)
Definition render : JsResult Rendered :=
  match opt_member (js_index steps_ current_) title with
  | Raise e => Raise e
  | Ok valuetext =>
      Ok {| root_classes := containerClasses;
            root_testid := data_testid props;
            root_role := "progressbar";
            aria_valuemin := 0;
            aria_valuemax := js_length steps_ - 1;
            aria_valuenow := current_;
            aria_valuetext := valuetext;
            track := renderTrack |}
  end.
End Render.

(** What one render of the component yields: the markup and the handle. *)
Record Instance : Type :=
  { element : Rendered; handle : DynStepperRef }.

(** The component, on a render where every [useCallback] yields the
    closure it was just given (the first render, or any render after its
    dependencies changed). *)
Definition DynStepper (props : DynStepperProps) : JsResult Instance :=
  let current_ := current props in
  let steps_ := steps props in
  let onChange_ := onChange props in
  let clickable_ := default true (clickable props) in
  let handleStepClick_ := handleStepClick current_ onChange_ clickable_ in
  let goToStep_ := goToStep steps_ onChange_ in
  let nextStep_ := nextStep current_ steps_ goToStep_ in
  let previousStep_ := previousStep current_ goToStep_ in
  match render props handleStepClick_ with
  | Raise e => Raise e
  | Ok el =>
      Ok {| element := el;
            handle := {| ref_goToStep := goToStep_;
                         ref_nextStep := nextStep_;
                         ref_previousStep := previousStep_ |} |}
  end.

(** The closures a render of [props] creates. *)
Definition click_closure (p : DynStepperProps)
  : Z -> StepData -> Outcome HostCall :=
  handleStepClick (current p) (onChange p) (default true (clickable p)).

Definition goto_closure (p : DynStepperProps) : Z -> Outcome HostCall :=
  goToStep (steps p) (onChange p).

(** Delivering events to a rendered step. *)
Definition click (f : Fragment) : Outcome HostCall :=
  fire (step_onClick (frag_step f)).

Definition keydown (f : Fragment) (k : string) : Outcome HostCall :=
  key_outcome (fire_key (step_onKeyDown (frag_step f)) {| ev_key := k |}).

(** The children of the track as the DOM has them: fragments vanish. *)
Inductive TrackChild : Type :=
| StepChild (s : StepElement)
| ConnectorChild (c : Connector).

Definition fragment_children (f : Fragment) : list TrackChild :=
  StepChild (frag_step f) ::
  match frag_connector f with
  | Some c => [ConnectorChild c]
  | None => []
  end.

Definition track_children (t : list Fragment) : list TrackChild :=
  flat_map fragment_children t.

(** Reading the markup back: the status a step is displayed with is the
    one its [dyn-stepper__step--<status>] class names, and a connector is
    flagged completed by its [--completed] class. *)
Definition status_of_class (c : string) : list StepStatus :=
  filter (fun s => ("dyn-stepper__step--" ++ status_name s =? c)%string)
    [Pending; Current; Complete; Error].

Definition displayed_status (e : StepElement) : list StepStatus :=
  flat_map status_of_class (step_classes e).

Definition has_class (c : string) (classes : list string) : bool :=
  existsb (String.eqb c) classes.

Definition connector_completed (c : Connector) : bool :=
  has_class "dyn-stepper__connector--completed" (connector_classes c).

End Stepper.

(* ================================================================= *)
(** ** DynMenuItem *)

Module Menu.

Record DynMenuItemProps : Type :=
  { children : ReactNode;
    value : option string;
    onClick : option FnRef;
    disabled : option bool;
    selected : option bool;
    icon : ReactNode;
    description : option string;
    shortcut : option string;
    divider : option bool;
    className : option string;
    data_testid : option string }.

(** A call [onClick(value)] received by the host. *)
Inductive HostCall : Type :=
| OnClick (f : FnRef) (value_ : option string).

Section Closures.
Variable value_ : option string.
Variable onClick_ : option FnRef.
Variable disabled_ : bool.

(** [if (!disabled && onClick) onClick(value)]. *)
Definition handleClick : Outcome HostCall :=
  if negb disabled_ then
    match onClick_ with
    | Some f => Done [OnClick f value_]
    | None => Done []
    end
  else Done [].

Definition handleKeyDown (event : KeyboardEvent) : KeyResult HostCall :=
  if is_activation_key (ev_key event)
  then {| defaultPrevented := true; key_outcome := handleClick |}
  else {| defaultPrevented := false; key_outcome := Done [] |}.
End Closures.

(** The [div role="separator"] of the divider variant; it is given no
    event handler. *)
Record SeparatorElement : Type :=
  { sep_classes : list string;
    sep_role : string;
    sep_testid : option string }.

(** The shortcut label and its [aria-label]. *)
Record ShortcutElement : Type :=
  { shortcut_label : string; shortcut_text : string }.

(** The [button] of the item variant, as the component computes it.
    [btn_icon], [btn_description] and [btn_shortcut] are the elements of
    the decorations, [None] when the element is not rendered (React
    still prints a falsy number, such as an [icon] of 0, as text).  The
    rest props that the JSX spreads last are not part of it; [onClick]
    is destructured and so never among them. *)
Record ButtonElement : Type :=
  { btn_type : string;
    btn_classes : list string;
    btn_role : string;
    btn_disabled : bool;
    btn_aria_selected : bool;
    btn_data_value : option string;
    btn_testid : option string;
    btn_onClick : option (Outcome HostCall);
    btn_onKeyDown : option (KeyboardEvent -> KeyResult HostCall);
    btn_icon : option ReactNode;
    btn_label : ReactNode;
    btn_description : option string;
    btn_shortcut : option ShortcutElement }.

Inductive Rendered : Type :=
| Separator (s : SeparatorElement)
| MenuButton (b : ButtonElement).

Definition DynMenuItem (props : DynMenuItemProps) : Rendered :=
  let disabled_ := default false (disabled props) in
  let selected_ := default false (selected props) in
  let divider_ := default false (divider props) in
  if divider_ then
    Separator
      {| sep_classes :=
           clsx [cv_str "dyn-menu-item-divider"; cv_opt (className props)];
         sep_role := "separator";
         sep_testid := data_testid props |}
  else
    let handleClick_ := handleClick (value props) (onClick props) disabled_ in
    let handleKeyDown_ :=
      handleKeyDown (value props) (onClick props) disabled_ in
    let classes :=
      clsx [ cv_str "dyn-menu-item";
             cv_dict [ ("dyn-menu-item--selected", selected_);
                       ("dyn-menu-item--disabled", disabled_);
                       ("dyn-menu-item--with-icon", truthy_node (icon props));
                       ("dyn-menu-item--with-description",
                         truthy_string (description props)) ];
             cv_opt (className props) ] in
    MenuButton
      {| btn_type := "button";
         btn_classes := classes;
         btn_role := "menuitem";
         btn_disabled := disabled_;
         btn_aria_selected := selected_;
         btn_data_value := value props;
         btn_testid := data_testid props;
         btn_onClick := Some handleClick_;
         btn_onKeyDown := Some handleKeyDown_;
         btn_icon :=
           if truthy_node (icon props) then Some (icon props) else None;
         btn_label := children props;
         btn_description :=
           if truthy_string (description props) then description props
           else None;
         btn_shortcut :=
           if truthy_string (shortcut props)
           then Some {| shortcut_label :=
                          "Keyboard shortcut: " ++ default "" (shortcut props);
                        shortcut_text := default "" (shortcut props) |}
           else None |}.

(** An activation of the rendered item by the user. *)
Inductive Activation : Type :=
| PointerClick
| KeyPress (k : string).

Definition onClick_of (r : Rendered) : option (Outcome HostCall) :=
  match r with
  | Separator _ => None
  | MenuButton b => btn_onClick b
  end.

Definition onKeyDown_of (r : Rendered)
  : option (KeyboardEvent -> KeyResult HostCall) :=
  match r with
  | Separator _ => None
  | MenuButton b => btn_onKeyDown b
  end.

Definition activate (r : Rendered) (a : Activation) : Outcome HostCall :=
  match a with
  | PointerClick => fire (onClick_of r)
  | KeyPress k => key_outcome (fire_key (onKeyDown_of r) {| ev_key := k |})
  end.

End Menu.

(* ================================================================= *)
(** ** goToStep on JavaScript numbers

    The handle is typed [goToStep: (stepIndex: number) => void], and a
    number need not be an integer.  Here the argument is a JavaScript
    number: a finite value, known by the rational it denotes, [NaN] or
    an infinity.  On the integers this is [Stepper.goToStep]. *)

Module Numbers.
Import Stepper.

Inductive JsNumber : Type :=
| Finite (q : Q)
| NaN
| PosInfinity
| NegInfinity.


(** [x >= y] and [x < y] against an integer [y]; every comparison with
    [NaN] is false. *)
Definition num_geb (x : JsNumber) (y : Z) : bool :=
  match x with
  | Finite q => Qle_bool (inject_Z y) q
  | PosInfinity => true
  | NaN | NegInfinity => false
  end.

Definition num_ltb (x : JsNumber) (y : Z) : bool :=
  match x with
  | Finite q => negb (Qle_bool (inject_Z y) q)
  | NegInfinity => true
  | NaN | PosInfinity => false
  end.

(** The integer a number is, when it is one. *)
Definition as_integer (x : JsNumber) : option Z :=
  match x with
  | Finite q =>
      if Qeq_bool (inject_Z (Qfloor q)) q then Some (Qfloor q) else None
  | NaN | PosInfinity | NegInfinity => None
  end.

(** [arr[x]]: a key that is not an integer names no element. *)
Definition js_index_number {A : Type} (arr : list A) (x : JsNumber)
  : option A :=
  match as_integer x with
  | Some z => js_index arr z
  | None => None
  end.

(** The index handed on to [onChange]: [stepIndex] itself, which is an
    integer whenever [steps[stepIndex]] exists. *)
Definition index_passed (x : JsNumber) : Z :=
  match x with
  | Finite q => Qfloor q
  | NaN | PosInfinity | NegInfinity => 0
  end.

Definition goToStep (steps_ : list StepData) (onChange_ : option FnRef)
  (stepIndex : JsNumber) : Outcome HostCall :=
  if num_geb stepIndex 0 && num_ltb stepIndex (js_length steps_) then
    match js_index_number steps_ stepIndex with
    | None => Throw (TypeError "Cannot read properties of undefined")
    | Some s =>
        if negb (truthy_flag (disabled s))
        then Done (call_onChange onChange_ (index_passed stepIndex) s)
        else Done []
    end
  else Done [].


End Numbers.

(* ================================================================= *)
(** ** The hooks of DynStepper across renders

    [DynStepper] keeps its four handlers in [useCallback] cells and its
    handle in a [useImperativeHandle] cell.  A cell holds the value of the
    render that last filled it and the dependency array of that render;
    React refills it when one dependency differs under [Object.is].
    Objects are compared by identity: the host function by its [FnRef],
    the [steps] array by the reference the host passes it under, a
    memoised closure by the generation of the cell that holds it, and
    the [ref] of the handle by its own identity: React appends it to the
    dependencies of [useImperativeHandle]. *)

Module Hooks.
Import Stepper.

(** Reference (identity) of an array object owned by the host. *)
Definition ArrRef := nat.

(** Identity of the [ref] through which the host reaches the handle. *)
Definition HandleRef := nat.

(** One entry of a dependency array. *)
Inductive Dep : Type :=
| DBool (b : bool)
| DNum (n : Z)
| DFn (f : option FnRef)
| DArr (r : ArrRef)
| DClosure (generation : nat)
| DRef (r : HandleRef).

(** [Object.is] on dependencies. *)
Definition dep_is (a b : Dep) : bool :=
  match a, b with
  | DBool x, DBool y => Bool.eqb x y
  | DNum x, DNum y => x =? y
  | DFn None, DFn None => true
  | DFn (Some f), DFn (Some g) => Nat.eqb f g
  | DArr r, DArr q => Nat.eqb r q
  | DClosure g, DClosure h => Nat.eqb g h
  | DRef r, DRef q => Nat.eqb r q
  | _, _ => false
  end.

(** [areHookInputsEqual]. *)
Fixpoint deps_equal (prev next : list Dep) : bool :=
  match prev, next with
  | [], [] => true
  | a :: p, b :: n => dep_is a b && deps_equal p n
  | _, _ => false
  end.

Record MemoCell (F : Type) : Type :=
  { memo_value : F;
    memo_deps : list Dep;
    memo_generation : nat }.

(** [useCallback(callback, deps)], and the cell of
    [useImperativeHandle(ref, create, deps)]: the previous value is kept
    when the dependencies are unchanged, else the new one is stored as a
    new object. *)
Definition useCallback (F : Type) (prev : option (MemoCell F))
  (callback : F) (deps : list Dep) : MemoCell F :=
  match prev with
  | None =>
      {| memo_value := callback; memo_deps := deps; memo_generation := O |}
  | Some c =>
      if deps_equal (memo_deps c) deps then c
      else {| memo_value := callback;
              memo_deps := deps;
              memo_generation := S (memo_generation c) |}
  end.

(** The cells of one mounted [DynStepper], in the order of its hooks. *)
Record HookState : Type :=
  { cell_handleStepClick : MemoCell (Z -> StepData -> Outcome HostCall);
    cell_goToStep : MemoCell (Z -> Outcome HostCall);
    cell_nextStep : MemoCell (Outcome HostCall);
    cell_previousStep : MemoCell (Outcome HostCall);
    cell_handle : MemoCell DynStepperRef }.

(** The props of one render, with the identity of the [steps] array
    and of the [ref] the host passes. *)
Record HostProps : Type :=
  { props : DynStepperProps;
    steps_ref : ArrRef;
    handle_ref : HandleRef }.

(** One render of the component: [hooks] is [None] on the first render
    and the state the previous render left otherwise. *)
Definition DynStepper_render (hooks : option HookState) (hp : HostProps)
  : JsResult Instance * HookState :=
  let p := props hp in
  let current_ := current p in
  let steps_ := steps p in
  let onChange_ := onChange p in
  let clickable_ := default true (clickable p) in
  let c_click :=
    useCallback (option_map cell_handleStepClick hooks)
      (handleStepClick current_ onChange_ clickable_)
      [DBool clickable_; DNum current_; DFn onChange_] in
  let c_goto :=
    useCallback (option_map cell_goToStep hooks)
      (goToStep steps_ onChange_)
      [DArr (steps_ref hp); DFn onChange_] in
  let c_next :=
    useCallback (option_map cell_nextStep hooks)
      (nextStep current_ steps_ (memo_value c_goto))
      [DNum current_; DNum (js_length steps_);
       DClosure (memo_generation c_goto)] in
  let c_prev :=
    useCallback (option_map cell_previousStep hooks)
      (previousStep current_ (memo_value c_goto))
      [DNum current_; DClosure (memo_generation c_goto)] in
  let c_handle :=
    useCallback (option_map cell_handle hooks)
      {| ref_goToStep := memo_value c_goto;
         ref_nextStep := memo_value c_next;
         ref_previousStep := memo_value c_prev |}
      [DClosure (memo_generation c_goto);
       DClosure (memo_generation c_next);
       DClosure (memo_generation c_prev);
       DRef (handle_ref hp)] in
  (match render p (memo_value c_click) with
   | Raise e => Raise e
   | Ok el => Ok {| element := el; handle := memo_value c_handle |}
   end,
   {| cell_handleStepClick := c_click;
      cell_goToStep := c_goto;
      cell_nextStep := c_next;
      cell_previousStep := c_prev;
      cell_handle := c_handle |}).

(** The hook states a mounted component can be in, given the arrays the
    host owns: [heap r] is the array whose reference is [r]. *)
Inductive reachable (heap : ArrRef -> list StepData) : HookState -> Prop :=
| reach_mount hp :
    steps (props hp) = heap (steps_ref hp) ->
    reachable heap (snd (DynStepper_render None hp))
| reach_update h hp :
    reachable heap h ->
    steps (props hp) = heap (steps_ref hp) ->
    reachable heap (snd (DynStepper_render (Some h) hp)).

(** A hook state is settled on [hp] when every cell holds what a render
    of [hp] creates, under the dependencies of that render. *)
Definition settled (hp : HostProps) (h : HookState) : Prop :=
  let p := props hp in
  let clickable_ := default true (clickable p) in
  let c_goto := cell_goToStep h in
  let c_next := cell_nextStep h in
  let c_prev := cell_previousStep h in
  (memo_value (cell_handleStepClick h) =
     handleStepClick (current p) (onChange p) clickable_ /\
   memo_deps (cell_handleStepClick h) =
     [DBool clickable_; DNum (current p); DFn (onChange p)]) /\
  (memo_value c_goto = goToStep (steps p) (onChange p) /\
   memo_deps c_goto = [DArr (steps_ref hp); DFn (onChange p)]) /\
  (memo_value c_next = nextStep (current p) (steps p) (memo_value c_goto) /\
   memo_deps c_next =
     [DNum (current p); DNum (js_length (steps p));
      DClosure (memo_generation c_goto)]) /\
  (memo_value c_prev = previousStep (current p) (memo_value c_goto) /\
   memo_deps c_prev =
     [DNum (current p); DClosure (memo_generation c_goto)]) /\
  (memo_value (cell_handle h) =
     {| ref_goToStep := memo_value c_goto;
        ref_nextStep := memo_value c_next;
        ref_previousStep := memo_value c_prev |} /\
   memo_deps (cell_handle h) =
     [DClosure (memo_generation c_goto);
      DClosure (memo_generation c_next);
      DClosure (memo_generation c_prev);
      DRef (handle_ref hp)]).

(** [DynMenuItem] calls no hook: a render leaves nothing behind. *)
Definition DynMenuItem_render (hooks : option unit)
  (p : Menu.DynMenuItemProps) : Menu.Rendered * unit :=
  (Menu.DynMenuItem p, tt).

End Hooks.

(* ================================================================= *)
(** ** What a host and a user can do with a rendered stepper *)

Module Events.
Import Stepper.



(** The key handler of a rendered step, run on a key. *)
Definition keydown_result (f : Fragment) (k : string) : KeyResult HostCall :=
  fire_key (step_onKeyDown (frag_step f)) {| ev_key := k |}.


End Events.

(* ================================================================= *)
(** ** The attributes of the root, with the rest props *)

Module Attributes.
Import Stepper.





End Attributes.

(* ================================================================= *)
(** ** Sample inputs *)

Module Examples.
Import Stepper.

Definition plain_step (k t : string) : StepData :=
  {| key := k; title := t; description := None; status := None;
     disabled := None; icon := RUndefined |}.

Definition stepA : StepData := plain_step "a" "A".
Definition stepB : StepData := plain_step "b" "B".
Definition stepC : StepData := plain_step "c" "C".

(** A host callback. *)
Definition host_fn : FnRef := 7%nat.

(** Three steps, everything else left to its default. *)
Definition wizard (cur : Z) : DynStepperProps :=
  {| current := cur; steps := [stepA; stepB; stepC];
     orientation := None; size := None; onChange := Some host_fn;
     showNumbers := None; showConnectors := None; clickable := None;
     className := None; data_testid := None |}.

(** Two steps, and a callback. *)
Definition two_steps (cur : Z) : DynStepperProps :=
  {| current := cur; steps := [stepA; stepB];
     orientation := None; size := None; onChange := Some host_fn;
     showNumbers := None; showConnectors := None; clickable := None;
     className := None; data_testid := None |}.

(** The wizard as the host passes it, its [steps] array being the
    object [3] and its [ref] the object [5]. *)
Definition wizard_array : Hooks.ArrRef := 3%nat.

Definition wizard_ref : Hooks.HandleRef := 5%nat.

Definition wizard_render (cur : Z) : Hooks.HostProps :=
  {| Hooks.props := wizard cur; Hooks.steps_ref := wizard_array;
     Hooks.handle_ref := wizard_ref |}.

Definition host_heap (r : Hooks.ArrRef) : list StepData :=
  [stepA; stepB; stepC].

(** A menu row with a callback, and its disabled and divider variants. *)
Definition menu_item (disabled_ divider_ : option bool)
  : Menu.DynMenuItemProps :=
  {| Menu.children := RString "Save"; Menu.value := Some "save";
     Menu.onClick := Some host_fn; Menu.disabled := disabled_;
     Menu.selected := None; Menu.icon := RUndefined;
     Menu.description := None; Menu.shortcut := Some "Ctrl+S";
     Menu.divider := divider_; Menu.className := None;
     Menu.data_testid := None |}.

Definition save_item : Menu.DynMenuItemProps := menu_item None None.

(** A step that is marked complete by the host. *)
Definition done_step (k t : string) : StepData :=
  {| key := k; title := t; description := None; status := Some Complete;
     disabled := None; icon := RUndefined |}.

(** A step that is disabled. *)
Definition locked_step (k t : string) : StepData :=
  {| key := k; title := t; description := None; status := None;
     disabled := Some true; icon := RUndefined |}.

(** A wizard over any steps, with a callback. *)
Definition wizard_of (l : list StepData) (cur : Z) : DynStepperProps :=
  {| current := cur; steps := l;
     orientation := None; size := None; onChange := Some host_fn;
     showNumbers := None; showConnectors := None; clickable := None;
     className := None; data_testid := None |}.

(** The wizard without connectors. *)
Definition bare_wizard (cur : Z) : DynStepperProps :=
  {| current := cur; steps := [stepA; stepB; stepC];
     orientation := None; size := None; onChange := Some host_fn;
     showNumbers := None; showConnectors := Some false; clickable := None;
     className := None; data_testid := None |}.


(** A divider, whatever else it is given. *)
Definition divider_item (onClick_ : option FnRef) (disabled_ : option bool)
  (icon_ : ReactNode) : Menu.DynMenuItemProps :=
  {| Menu.children := RNull; Menu.value := Some "x";
     Menu.onClick := onClick_; Menu.disabled := disabled_;
     Menu.selected := None; Menu.icon := icon_;
     Menu.description := None; Menu.shortcut := None;
     Menu.divider := Some true; Menu.className := Some "sep";
     Menu.data_testid := None |}.

(** A menu row with an icon and a description. *)
Definition rich_item (selected_ : option bool) : Menu.DynMenuItemProps :=
  {| Menu.children := RString "Open"; Menu.value := Some "open";
     Menu.onClick := Some host_fn; Menu.disabled := None;
     Menu.selected := selected_; Menu.icon := RElement "svg";
     Menu.description := Some "Open a file"; Menu.shortcut := None;
     Menu.divider := None; Menu.className := Some "wide";
     Menu.data_testid := None |}.

End Examples.

(* ================================================================= *)
(** ** Facts about the prelude *)

Unset Implicit Arguments.

Lemma map_from_nth {A B : Type} (f : A -> Z -> B) (l : list A) :
  forall (k : Z) (n : nat),
    nth_error (map_from f k l) n =
    option_map (fun x => f x (k + Z.of_nat n)) (nth_error l n).
Proof.
  induction l as [|x r IH]; intros k n.
  - destruct n; reflexivity.
  - destruct n as [|n]; simpl.
    + now rewrite Z.add_0_r.
    + rewrite IH. destruct (nth_error r n); simpl; [|reflexivity].
      do 2 f_equal. lia.
Qed.

Lemma array_map_nth {A B : Type} (f : A -> Z -> B) (l : list A) (n : nat) :
  nth_error (array_map f l) n =
  option_map (fun x => f x (Z.of_nat n)) (nth_error l n).
Proof. unfold array_map. now rewrite map_from_nth. Qed.

Lemma map_from_length {A B : Type} (f : A -> Z -> B) (l : list A) :
  forall k, List.length (map_from f k l) = List.length l.
Proof. induction l; intros; simpl; auto. Qed.

Lemma js_index_nat {A : Type} (l : list A) (n : nat) :
  js_index l (Z.of_nat n) = nth_error l n.
Proof.
  unfold js_index. destruct (Z.ltb_spec (Z.of_nat n) 0); [lia|].
  now rewrite Nat2Z.id.
Qed.

Lemma js_index_in_range {A : Type} (l : list A) (i : Z) (x : A) :
  js_index l i = Some x -> 0 <= i < js_length l.
Proof.
  unfold js_index, js_length. destruct (Z.ltb_spec i 0); [discriminate|].
  intros E. assert (Z.to_nat i < List.length l)%nat; [|lia].
  apply nth_error_Some. congruence.
Qed.

Lemma js_index_out_of_range {A : Type} (l : list A) (i : Z) :
  i < 0 \/ js_length l <= i -> js_index l i = None.
Proof.
  unfold js_index, js_length. intros H.
  destruct (Z.ltb_spec i 0); [reflexivity|].
  apply nth_error_None. lia.
Qed.

Lemma js_index_defined {A : Type} (l : list A) (i : Z) :
  0 <= i < js_length l -> exists x, js_index l i = Some x.
Proof.
  intros H. destruct (js_index l i) eqn:E; [eauto|].
  unfold js_index, js_length in *. destruct (Z.ltb_spec i 0); [lia|].
  apply nth_error_None in E. lia.
Qed.

Lemma nth_error_in_range {A : Type} (l : list A) (n : nat) (x : A) :
  nth_error l n = Some x -> 0 <= Z.of_nat n < js_length l.
Proof. rewrite <- js_index_nat. apply js_index_in_range. Qed.

(* ================================================================= *)
(** ** DynStepper: what one render yields *)

Module StepperFacts.
Import Stepper.

Lemma DynStepper_ok (p : DynStepperProps) :
  exists inst,
    DynStepper p = Ok inst /\
    track (element inst) = renderTrack p (click_closure p) /\
    aria_valuetext (element inst) =
      option_map title (js_index (steps p) (current p)) /\
    aria_valuemin (element inst) = 0 /\
    aria_valuemax (element inst) = js_length (steps p) - 1 /\
    aria_valuenow (element inst) = current p /\
    ref_goToStep (handle inst) = goto_closure p /\
    ref_nextStep (handle inst) =
      nextStep (current p) (steps p) (goto_closure p) /\
    ref_previousStep (handle inst) =
      previousStep (current p) (goto_closure p).
Proof.
  unfold DynStepper, render, opt_member.
  destruct (js_index (steps p) (current p)) as [s|];
    eexists; (split; [reflexivity|]); simpl; repeat split.
Qed.

Lemma renderTrack_nth (p : DynStepperProps) h (i : nat) (step : StepData) :
  nth_error (steps p) i = Some step ->
  nth_error (renderTrack p h) i = Some (renderStep p h step (Z.of_nat i)).
Proof.
  intros E. unfold renderTrack. now rewrite array_map_nth, E.
Qed.

Lemma renderTrack_length (p : DynStepperProps) h :
  List.length (renderTrack p h) = List.length (steps p).
Proof. apply map_from_length. Qed.

Lemma renderStep_displayed (p : DynStepperProps) h step index :
  displayed_status (frag_step (renderStep p h step index)) =
  [getStepStatus (current p) index step].
Proof.
  unfold displayed_status, renderStep. simpl step_classes.
  destruct (getStepStatus (current p) index step),
    (isClickable p step index), (truthy_flag (disabled step)); reflexivity.
Qed.

(** The status rule of [getStepStatus], case by case. *)
Lemma getStepStatus_override c i step s :
  status step = Some s -> getStepStatus c i step = s.
Proof. unfold getStepStatus. now intros ->. Qed.

Lemma getStepStatus_complete c i step :
  status step = None -> i < c -> getStepStatus c i step = Complete.
Proof.
  unfold getStepStatus. intros -> H.
  destruct (Z.ltb_spec i c); [reflexivity|lia].
Qed.

Lemma getStepStatus_current c i step :
  status step = None -> i = c -> getStepStatus c i step = Current.
Proof.
  unfold getStepStatus. intros -> ->.
  rewrite Z.ltb_irrefl, Z.eqb_refl. reflexivity.
Qed.

Lemma getStepStatus_pending c i step :
  status step = None -> c < i -> getStepStatus c i step = Pending.
Proof.
  unfold getStepStatus. intros -> H.
  destruct (Z.ltb_spec i c); [lia|].
  destruct (Z.eqb_spec i c); [lia|reflexivity].
Qed.

Lemma getStepStatus_error c i step :
  getStepStatus c i step = Error -> status step = Some Error.
Proof.
  unfold getStepStatus. destruct (status step) as [s|]; [congruence|].
  destruct (i <? c); [discriminate|]. destruct (i =? c); discriminate.
Qed.

Lemma getStepStatus_is_current c i step :
  status step = None -> getStepStatus c i step = Current -> i = c.
Proof.
  unfold getStepStatus. intros ->.
  destruct (i <? c); [discriminate|].
  destruct (Z.eqb_spec i c); [auto|discriminate].
Qed.

(** C1. For every step sequence, every current index and every valid
    position [i], the step at [i] is rendered, it is displayed with one
    status, and that status is the step's explicit [status] when one is
    set, else [complete] when [i < current], [current] when
    [i = current] and [pending] otherwise; [error] is displayed only
    when it is the explicit [status]. *)
Theorem C1_displayed_status (p : DynStepperProps) (i : nat) (step : StepData) :
  nth_error (steps p) i = Some step ->
  exists inst frag st,
    DynStepper p = Ok inst /\
    nth_error (track (element inst)) i = Some frag /\
    displayed_status (frag_step frag) = [st] /\
    st = getStepStatus (current p) (Z.of_nat i) step /\
    (forall s, status step = Some s -> st = s) /\
    (status step = None -> Z.of_nat i < current p -> st = Complete) /\
    (status step = None -> Z.of_nat i = current p -> st = Current) /\
    (status step = None -> current p < Z.of_nat i -> st = Pending) /\
    (st = Error -> status step = Some Error).
Proof.
  intros Hi. destruct (DynStepper_ok p) as (inst & Hok & Htrack & _).
  exists inst, (renderStep p (click_closure p) step (Z.of_nat i)),
    (getStepStatus (current p) (Z.of_nat i) step).
  split; [exact Hok|]. split; [rewrite Htrack; now apply renderTrack_nth|].
  split; [apply renderStep_displayed|]. split; [reflexivity|].
  repeat split.
  - intros s. apply getStepStatus_override.
  - apply getStepStatus_complete.
  - apply getStepStatus_current.
  - apply getStepStatus_pending.
  - apply getStepStatus_error.
Qed.

(** C1 at the scenario of the specification: steps A, B, C and
    [current = 1], at step C. *)
Lemma C1_displayed_status_witness :
  nth_error (steps (Examples.wizard 1)) 2 = Some Examples.stepC /\
  exists inst frag st,
    DynStepper (Examples.wizard 1) = Ok inst /\
    nth_error (track (element inst)) 2 = Some frag /\
    displayed_status (frag_step frag) = [st] /\
    st = Pending.
Proof.
  split; [reflexivity|].
  destruct (C1_displayed_status (Examples.wizard 1) 2 Examples.stepC eq_refl)
    as (inst & frag & st & H1 & H2 & H3 & H4 & _).
  exists inst, frag, st. repeat split; assumption.
Defined.

(** *** Direct interaction *)

Lemma isClickable_spec (p : DynStepperProps) step index :
  isClickable p step index = true <->
  default true (clickable p) = true /\
  truthy_flag (disabled step) = false /\
  index <= current p.
Proof.
  unfold isClickable.
  rewrite !andb_true_iff, negb_true_iff, Z.leb_le. tauto.
Qed.

(** Behind the guard of the markup, [handleStepClick] tests the same
    three conditions again. *)
Lemma click_closure_spec (p : DynStepperProps) step index :
  click_closure p index step =
  if isClickable p step index
  then Done (call_onChange (onChange p) index step)
  else Done [].
Proof.
  unfold click_closure, handleStepClick, isClickable.
  destruct (default true (clickable p)), (truthy_flag (disabled step)),
    (index <=? current p); reflexivity.
Qed.

Lemma click_renderStep (p : DynStepperProps) h step index :
  click (renderStep p h step index) =
  if isClickable p step index then h index step else Done [].
Proof.
  unfold click, renderStep. simpl.
  destruct (isClickable p step index); reflexivity.
Qed.

Lemma keydown_renderStep (p : DynStepperProps) h step index k :
  keydown (renderStep p h step index) k =
  if isClickable p step index && is_activation_key k
  then h index step else Done [].
Proof.
  unfold keydown, renderStep. simpl.
  destruct (isClickable p step index); simpl; [|reflexivity].
  destruct (is_activation_key k); reflexivity.
Qed.

Lemma interaction_outcome (p : DynStepperProps) step index a :
  let frag := renderStep p (click_closure p) step index in
  In a [click frag; keydown frag "Enter"; keydown frag " "] ->
  a = if isClickable p step index
      then Done (call_onChange (onChange p) index step)
      else Done [].
Proof.
  intros frag Ha. subst frag.
  rewrite click_renderStep, !keydown_renderStep, click_closure_spec in Ha.
  simpl in Ha. rewrite andb_true_r in Ha.
  destruct (isClickable p step index); simpl in Ha; intuition congruence.
Qed.

(** C2. With a change callback supplied, a pointer click or an Enter or
    Space key press on the step at position [i] calls the callback with
    [(i, step)] if and only if [clickable] is true, the step's
    [disabled] is falsy and [i <= current]; it makes no call otherwise,
    so a step after the current one never fires on direct interaction,
    whatever the key. *)
Theorem C2_direct_interaction
  (p : DynStepperProps) (i : nat) (step : StepData) (f : FnRef) :
  nth_error (steps p) i = Some step ->
  onChange p = Some f ->
  exists inst frag,
    DynStepper p = Ok inst /\
    nth_error (track (element inst)) i = Some frag /\
    (forall a,
       In a [click frag; keydown frag "Enter"; keydown frag " "] ->
       (a = Done [OnChange f (Z.of_nat i) step] <->
        default true (clickable p) = true /\
        truthy_flag (disabled step) = false /\
        Z.of_nat i <= current p) /\
       (a = Done [OnChange f (Z.of_nat i) step] \/ a = Done [])) /\
    (current p < Z.of_nat i ->
     click frag = Done [] /\ forall k, keydown frag k = Done []).
Proof.
  intros Hi Hf. destruct (DynStepper_ok p) as (inst & Hok & Htrack & _).
  exists inst, (renderStep p (click_closure p) step (Z.of_nat i)).
  split; [exact Hok|]. split; [rewrite Htrack; now apply renderTrack_nth|].
  split.
  - intros a Ha. apply interaction_outcome in Ha. rewrite Hf in Ha.
    rewrite <- isClickable_spec.
    destruct (isClickable p step (Z.of_nat i)); subst a; simpl.
    + split; [tauto|now left].
    + split; [split; discriminate|now right].
  - intros Hlt.
    assert (isClickable p step (Z.of_nat i) = false) as Hn.
    { destruct (isClickable p step (Z.of_nat i)) eqn:E; [|reflexivity].
      apply isClickable_spec in E. lia. }
    split; [rewrite click_renderStep|intros k; rewrite keydown_renderStep];
      now rewrite Hn.
Qed.

(** C2 at the scenario of the specification: clicking A at
    [current = 1] fires [onChange(0, A)]. *)
Lemma C2_direct_interaction_witness :
  nth_error (steps (Examples.wizard 1)) 0 = Some Examples.stepA /\
  onChange (Examples.wizard 1) = Some Examples.host_fn /\
  exists inst frag,
    DynStepper (Examples.wizard 1) = Ok inst /\
    nth_error (track (element inst)) 0 = Some frag /\
    click frag = Done [OnChange Examples.host_fn 0 Examples.stepA].
Proof.
  split; [reflexivity|]. split; [reflexivity|].
  destruct (C2_direct_interaction (Examples.wizard 1) 0 Examples.stepA
              Examples.host_fn eq_refl eq_refl)
    as (inst & frag & H1 & H2 & H3 & _).
  exists inst, frag. split; [exact H1|]. split; [exact H2|].
  apply (H3 (click frag)); [now left|].
  split; [reflexivity|]. split; [reflexivity|]. simpl. lia.
Defined.

(** *** The imperative handle *)

Lemma goToStep_spec (stepsv : list StepData) (oc : option FnRef) index :
  goToStep stepsv oc index =
  match js_index stepsv index with
  | Some s =>
      if truthy_flag (disabled s) then Done []
      else Done (call_onChange oc index s)
  | None => Done []
  end.
Proof.
  unfold goToStep.
  destruct (js_index stepsv index) as [s|] eqn:E.
  - apply js_index_in_range in E.
    destruct (Z.geb_spec index 0); [|lia].
    destruct (Z.ltb_spec index (js_length stepsv)); [|lia]. simpl.
    destruct (truthy_flag (disabled s)); reflexivity.
  - destruct (Z.geb_spec index 0); [|reflexivity].
    destruct (Z.ltb_spec index (js_length stepsv)); [|reflexivity].
    destruct (js_index_defined stepsv index) as (x & Hx); [lia|congruence].
Qed.

Lemma goToStep_never_throws (stepsv : list StepData) oc index e :
  goToStep stepsv oc index <> Throw e.
Proof.
  rewrite goToStep_spec.
  destruct (js_index stepsv index) as [s|]; [|discriminate].
  destruct (truthy_flag (disabled s)); discriminate.
Qed.

(** On integer indices [goToStep] keeps its contract: with a change
    callback supplied it calls it with [(index, steps[index])] if and
    only if [0 <= index < length] and [steps[index].disabled] is falsy,
    and otherwise does nothing.  The outcome depends on [steps] and
    [onChange] only: [current] does not bound it. *)
Lemma goToStep_integer_index (p : DynStepperProps) (index : Z) (f : FnRef) :
  onChange p = Some f ->
  exists inst,
    DynStepper p = Ok inst /\
    (forall s,
       ref_goToStep (handle inst) index = Done [OnChange f index s] <->
       0 <= index < js_length (steps p) /\
       js_index (steps p) index = Some s /\
       truthy_flag (disabled s) = false) /\
    ((exists s, ref_goToStep (handle inst) index = Done [OnChange f index s])
     \/ ref_goToStep (handle inst) index = Done []) /\
    (forall p' inst',
       DynStepper p' = Ok inst' ->
       steps p' = steps p -> onChange p' = onChange p ->
       ref_goToStep (handle inst') index = ref_goToStep (handle inst) index).
Proof.
  intros Hf.
  destruct (DynStepper_ok p)
    as (inst & Hok & _ & _ & _ & _ & _ & Hgo & _).
  exists inst. split; [exact Hok|].
  rewrite Hgo. unfold goto_closure. rewrite goToStep_spec, Hf.
  split; [|split].
  - intros s. split.
    + destruct (js_index (steps p) index) as [s0|] eqn:E; [|discriminate].
      destruct (truthy_flag (disabled s0)) eqn:D; [discriminate|].
      simpl. intros H. injection H as <-.
      split; [now apply js_index_in_range with (x := s0)|]. now split.
    + intros (_ & -> & ->). reflexivity.
  - destruct (js_index (steps p) index) as [s0|]; [|now right].
    destruct (truthy_flag (disabled s0)); [now right|].
    left. now exists s0.
  - intros p' inst' Hok' Hs Ho.
    destruct (DynStepper_ok p')
      as (i2 & Hok2 & _ & _ & _ & _ & _ & Hgo2 & _).
    rewrite Hok' in Hok2. injection Hok2 as <-.
    rewrite Hgo2. unfold goto_closure.
    now rewrite goToStep_spec, Hs, Ho.
Qed.

(** A forward jump: at [current = 0], [goToStep(2)] fires
    [onChange(2, C)]. *)
Lemma goToStep_forward_jump :
  onChange (Examples.wizard 0) = Some Examples.host_fn /\
  exists inst,
    DynStepper (Examples.wizard 0) = Ok inst /\
    ref_goToStep (handle inst) 2 =
      Done [OnChange Examples.host_fn 2 Examples.stepC].
Proof.
  split; [reflexivity|].
  destruct (goToStep_integer_index (Examples.wizard 0) 2 Examples.host_fn
              eq_refl)
    as (inst & H1 & H2 & _).
  exists inst. split; [exact H1|].
  apply H2. split; [|split; reflexivity].
  unfold js_length. simpl. lia.
Defined.

(** *** goToStep on numbers that are not integers *)







(** C3. [goToStep(1.5)] on three steps: the index passes [>= 0] and
    [< length], [steps[1.5]] is [undefined], and reading its [disabled]
    throws, where the claim promises a silent no-op for every index
    that fires no callback. *)
Theorem C3_goToStep_between_steps :
  let p := Examples.wizard 1 in
  let index := Numbers.Finite (3 # 2) in
  Numbers.num_geb index 0 = true /\
  Numbers.num_ltb index (js_length (steps p)) = true /\
  Numbers.js_index_number (steps p) index = None /\
  Numbers.goToStep (steps p) (onChange p) index =
    Throw (TypeError "Cannot read properties of undefined").
Proof. repeat split. Qed.


(** *** Out-of-range [current] and empty sequences *)

(** C5. For every step sequence and every integer [current], rendering
    yields markup and raises nothing, and no operation of the handle
    throws.  When [current] is negative or at least the length, the
    [aria-valuetext] lookup yields nothing and no step without an
    explicit [status] is displayed as [current]; an empty sequence
    renders an empty track. *)
Theorem C5_out_of_range_tolerated (p : DynStepperProps) :
  exists inst,
    DynStepper p = Ok inst /\
    (current p < 0 \/ js_length (steps p) <= current p ->
     aria_valuetext (element inst) = None /\
     forall i step frag,
       nth_error (steps p) i = Some step ->
       nth_error (track (element inst)) i = Some frag ->
       status step = None ->
       ~ In Current (displayed_status (frag_step frag))) /\
    (steps p = [] -> track (element inst) = []) /\
    (forall e index, ref_goToStep (handle inst) index <> Throw e) /\
    (forall e, ref_nextStep (handle inst) <> Throw e) /\
    (forall e, ref_previousStep (handle inst) <> Throw e).
Proof.
  destruct (DynStepper_ok p)
    as (inst & Hok & Htrack & Htext & _ & _ & _ & Hgo & Hnext & Hprev).
  exists inst. split; [exact Hok|].
  split; [|split; [|split; [|split]]];
    [| | intros e index; rewrite Hgo; apply goToStep_never_throws
       | intros e; rewrite Hnext; unfold nextStep;
         destruct (current p <? js_length (steps p) - 1);
         [apply goToStep_never_throws|discriminate]
       | intros e; rewrite Hprev; unfold previousStep;
         destruct (current p >? 0);
         [apply goToStep_never_throws|discriminate] ].
  - intros Hout. split.
    + rewrite Htext, js_index_out_of_range; [reflexivity|exact Hout].
    + intros i step frag Hi Hfrag Hnone Hin.
      rewrite Htrack, (renderTrack_nth _ _ _ _ Hi) in Hfrag.
      injection Hfrag as <-. rewrite renderStep_displayed in Hin.
      destruct Hin as [Hin|[]].
      apply getStepStatus_is_current in Hin; [|exact Hnone].
      apply nth_error_in_range in Hi. lia.
  - intros Hempty. rewrite Htrack. unfold renderTrack. now rewrite Hempty.
Qed.

(** *** The status indicator *)

(** C6. The indicator of a step is the error glyph when the step is
    displayed as [error]; else the complete glyph when it is displayed
    as [complete], whatever its [icon]; else its [icon] when that is
    present (truthy); else the ordinal [index + 1] when [showNumbers]
    is true; else the empty dot. *)
Theorem C6_indicator_priority
  (p : DynStepperProps) (i : nat) (step : StepData) :
  nth_error (steps p) i = Some step ->
  exists inst frag st,
    DynStepper p = Ok inst /\
    nth_error (track (element inst)) i = Some frag /\
    displayed_status (frag_step frag) = [st] /\
    (st = Error -> step_indicator (frag_step frag) = DynIcon "x" "sm") /\
    (st = Complete ->
     step_indicator (frag_step frag) = DynIcon "check" "sm") /\
    (st <> Error -> st <> Complete ->
     truthy_node (icon step) = true ->
     step_indicator (frag_step frag) = CustomIcon (icon step)) /\
    (st <> Error -> st <> Complete ->
     truthy_node (icon step) = false ->
     default true (showNumbers p) = true ->
     step_indicator (frag_step frag) = StepNumber (Z.of_nat i + 1)) /\
    (st <> Error -> st <> Complete ->
     truthy_node (icon step) = false ->
     default true (showNumbers p) = false ->
     step_indicator (frag_step frag) = StepDot).
Proof.
  intros Hi. destruct (DynStepper_ok p) as (inst & Hok & Htrack & _).
  exists inst, (renderStep p (click_closure p) step (Z.of_nat i)),
    (getStepStatus (current p) (Z.of_nat i) step).
  split; [exact Hok|]. split; [rewrite Htrack; now apply renderTrack_nth|].
  split; [apply renderStep_displayed|].
  unfold renderStep, renderIndicator. simpl step_indicator.
  destruct (getStepStatus (current p) (Z.of_nat i) step);
    repeat split; intros; try congruence;
    repeat match goal with
           | H : _ = true |- _ => rewrite H
           | H : _ = false |- _ => rewrite H
           end; reflexivity.
Qed.

(** C6 on a completed step that carries a custom icon: the complete
    glyph wins. *)
Lemma C6_indicator_priority_witness :
  let step := {| key := "a"; title := "A"; description := None;
                 status := None; disabled := None;
                 icon := RElement "svg" |} in
  let p := {| current := 1; steps := [step; Examples.stepB];
              orientation := None; size := None; onChange := None;
              showNumbers := None; showConnectors := None;
              clickable := None; className := None;
              data_testid := None |} in
  nth_error (steps p) 0 = Some step /\
  exists inst frag,
    DynStepper p = Ok inst /\
    nth_error (track (element inst)) 0 = Some frag /\
    displayed_status (frag_step frag) = [Complete] /\
    step_indicator (frag_step frag) = DynIcon "check" "sm".
Proof.
  intros step p. split; [reflexivity|].
  destruct (C6_indicator_priority p 0 step eq_refl)
    as (inst & frag & st & H1 & H2 & H3 & _ & H5 & _).
  assert (st = Complete) as Hst.
  { vm_compute in H1. injection H1 as <-.
    vm_compute in H2. injection H2 as <-. vm_compute in H3.
    now injection H3. }
  exists inst, frag. subst st. auto.
Defined.

(** *** Connectors *)

Lemma renderStep_connector (p : DynStepperProps) h step index :
  frag_connector (renderStep p h step index) =
  if default true (showConnectors p) && (index <? js_length (steps p) - 1)
  then Some {| connector_classes :=
                 clsx [ cv_str "dyn-stepper__connector";
                        cv_dict [ ("dyn-stepper__connector--completed",
                                    index <? current p) ] ] |}
  else None.
Proof. reflexivity. Qed.

Lemma connector_completed_spec (b : bool) :
  connector_completed
    {| connector_classes :=
         clsx [ cv_str "dyn-stepper__connector";
                cv_dict [ ("dyn-stepper__connector--completed", b) ] ] |}
  = b.
Proof. destruct b; reflexivity. Qed.

(** Where the children of a track sit once the fragments are flattened,
    when every fragment but the last carries a connector. *)
Lemma track_children_nth (t : list Fragment) :
  (forall i f, nth_error t i = Some f -> (S i < List.length t)%nat ->
               frag_connector f <> None) ->
  forall i f,
    nth_error t i = Some f ->
    nth_error (track_children t) (2 * i) = Some (StepChild (frag_step f)) /\
    (forall c, frag_connector f = Some c ->
               nth_error (track_children t) (2 * i + 1) =
               Some (ConnectorChild c)).
Proof.
  induction t as [|f0 t IH]; intros Hc i f Hi.
  - destruct i; discriminate.
  - destruct i as [|i].
    + injection Hi as ->. unfold track_children. simpl. split; [reflexivity|].
      intros c ->. reflexivity.
    + simpl in Hi.
      assert (frag_connector f0 <> None) as H0.
      { apply (Hc O f0 eq_refl). simpl.
        assert (i < List.length t)%nat; [|lia].
        apply nth_error_Some. congruence. }
      destruct (frag_connector f0) as [c0|] eqn:E0; [|congruence].
      assert (forall n, nth_error (track_children (f0 :: t)) (S (S n)) =
                        nth_error (track_children t) n) as Hshift.
      { intros n. unfold track_children. simpl. unfold fragment_children at 1.
        now rewrite E0. }
      replace (2 * S i)%nat with (S (S (2 * i))) by lia.
      replace (S (S (2 * i)) + 1)%nat with (S (S (2 * i + 1))) by lia.
      rewrite !Hshift. apply IH; [|exact Hi].
      intros j g Hj Hlt. apply (Hc (S j) g Hj). simpl. lia.
Qed.

Lemma track_children_length (t : list Fragment) :
  (forall i f, nth_error t i = Some f ->
     (frag_connector f <> None <-> (S i < List.length t)%nat)) ->
  List.length (track_children t) = (2 * List.length t - 1)%nat.
Proof.
  induction t as [|f0 t IH]; intros Hc; [reflexivity|].
  unfold track_children. simpl.
  rewrite length_app. fold (track_children t).
  rewrite IH.
  - pose proof (Hc O f0 eq_refl) as H0. simpl in H0.
    destruct (frag_connector f0); destruct t; simpl in *; try lia.
    + exfalso. assert (1 < 1)%nat; [apply H0; discriminate | lia].
    + exfalso. apply (proj2 H0); [lia|reflexivity].
  - intros i f Hi. specialize (Hc (S i) f Hi). simpl in Hc.
    rewrite Hc. lia.
Qed.

Lemma renderTrack_connector (p : DynStepperProps) h i f :
  default true (showConnectors p) = true ->
  nth_error (renderTrack p h) i = Some f ->
  (S i < List.length (steps p))%nat ->
  frag_connector f =
  Some {| connector_classes :=
            clsx [ cv_str "dyn-stepper__connector";
                   cv_dict [ ("dyn-stepper__connector--completed",
                               Z.of_nat i <? current p) ] ] |}.
Proof.
  intros Hshow Hf Hlt. unfold renderTrack in Hf.
  rewrite array_map_nth in Hf.
  destruct (nth_error (steps p) i) as [step|]; [|discriminate].
  injection Hf as <-. rewrite renderStep_connector, Hshow.
  unfold js_length.
  destruct (Z.ltb_spec (Z.of_nat i) (Z.of_nat (List.length (steps p)) - 1));
    [reflexivity|lia].
Qed.

Lemma renderTrack_last_connector (p : DynStepperProps) h i f :
  nth_error (renderTrack p h) i = Some f ->
  ~ (S i < List.length (steps p))%nat ->
  frag_connector f = None.
Proof.
  intros Hf Hlt. unfold renderTrack in Hf.
  rewrite array_map_nth in Hf.
  destruct (nth_error (steps p) i) as [step|]; [|discriminate].
  injection Hf as <-. rewrite renderStep_connector.
  unfold js_length.
  destruct (Z.ltb_spec (Z.of_nat i) (Z.of_nat (List.length (steps p)) - 1));
    [lia|now rewrite andb_false_r].
Qed.

(** C7. With connectors enabled, between every two consecutive steps at
    positions [i] and [i + 1] the track holds one connector, flagged
    completed if and only if [i < current]; the last step is followed by
    no connector, so the track has [2 * length - 1] children. *)
Theorem C7_connectors (p : DynStepperProps) :
  default true (showConnectors p) = true ->
  exists inst,
    DynStepper p = Ok inst /\
    (forall i, (S i < List.length (steps p))%nat ->
       exists fi fj c,
         nth_error (track (element inst)) i = Some fi /\
         nth_error (track (element inst)) (S i) = Some fj /\
         frag_connector fi = Some c /\
         (connector_completed c = true <-> Z.of_nat i < current p) /\
         nth_error (track_children (track (element inst))) (2 * i) =
           Some (StepChild (frag_step fi)) /\
         nth_error (track_children (track (element inst))) (2 * i + 1) =
           Some (ConnectorChild c) /\
         nth_error (track_children (track (element inst))) (2 * i + 2) =
           Some (StepChild (frag_step fj))) /\
    (forall i f, S i = List.length (steps p) ->
       nth_error (track (element inst)) i = Some f ->
       frag_connector f = None) /\
    List.length (track_children (track (element inst))) =
      (2 * List.length (steps p) - 1)%nat.
Proof.
  intros Hshow. destruct (DynStepper_ok p) as (inst & Hok & Htrack & _).
  exists inst. split; [exact Hok|]. rewrite Htrack.
  set (t := renderTrack p (click_closure p)).
  assert (List.length t = List.length (steps p)) as Hlen
    by apply renderTrack_length.
  assert (forall i f, nth_error t i = Some f -> (S i < List.length t)%nat ->
                      frag_connector f <> None) as Hall.
  { intros i f Hf Hlt.
    rewrite (renderTrack_connector _ _ _ _ Hshow Hf); [discriminate|lia]. }
  split; [|split].
  - intros i Hlt.
    destruct (nth_error t i) as [fi|] eqn:Ei;
      [|apply nth_error_None in Ei; lia].
    destruct (nth_error t (S i)) as [fj|] eqn:Ej;
      [|apply nth_error_None in Ej; lia].
    pose proof (renderTrack_connector _ _ _ _ Hshow Ei Hlt) as Hc.
    eexists fi, fj, _. split; [reflexivity|]. split; [reflexivity|].
    split; [exact Hc|]. split.
    + rewrite connector_completed_spec. apply Z.ltb_lt.
    + destruct (track_children_nth t Hall _ _ Ei) as (H1 & H2).
      destruct (track_children_nth t Hall _ _ Ej) as (H3 & _).
      split; [exact H1|]. split; [now apply H2|].
      replace (2 * i + 2)%nat with (2 * S i)%nat by lia. exact H3.
  - intros i f Hlast Hf. apply (renderTrack_last_connector _ _ _ _ Hf). lia.
  - rewrite <- Hlen. apply track_children_length.
    intros i f Hf. split.
    + intros Hne. destruct (Nat.lt_ge_cases (S i) (List.length t)) as [|Hge];
        [assumption|].
      exfalso. apply Hne. apply (renderTrack_last_connector _ _ _ _ Hf). lia.
    + apply Hall, Hf.
Qed.

(** C7 at three steps and [current = 1]: the first connector is flagged
    completed, the second is not. *)
Lemma C7_connectors_witness :
  default true (showConnectors (Examples.wizard 1)) = true /\
  exists inst,
    DynStepper (Examples.wizard 1) = Ok inst /\
    List.length (track_children (track (element inst))) = 5%nat.
Proof.
  split; [reflexivity|].
  destruct (C7_connectors (Examples.wizard 1) eq_refl)
    as (inst & H1 & _ & _ & H4).
  exists inst. split; [exact H1|exact H4].
Defined.

(** *** The two out-of-range directions *)

(** C10. When [current >= length], every step without an explicit
    [status] is displayed as [complete] and every rendered connector is
    flagged completed (with connectors enabled there is one after every
    step but the last); when [current < 0], every step without an
    explicit [status] is displayed as [pending]. *)
Theorem C10_out_of_range_directions (p : DynStepperProps) :
  exists inst,
    DynStepper p = Ok inst /\
    List.length (track (element inst)) = List.length (steps p) /\
    (js_length (steps p) <= current p ->
     (forall i step,
        nth_error (steps p) i = Some step ->
        status step = None ->
        exists frag,
          nth_error (track (element inst)) i = Some frag /\
          displayed_status (frag_step frag) = [Complete]) /\
     (forall i frag c,
        nth_error (track (element inst)) i = Some frag ->
        frag_connector frag = Some c ->
        connector_completed c = true) /\
     (default true (showConnectors p) = true ->
      forall i, (S i < List.length (steps p))%nat ->
        exists frag c,
          nth_error (track (element inst)) i = Some frag /\
          frag_connector frag = Some c /\
          connector_completed c = true)) /\
    (current p < 0 ->
     forall i step,
       nth_error (steps p) i = Some step ->
       status step = None ->
       exists frag,
         nth_error (track (element inst)) i = Some frag /\
         displayed_status (frag_step frag) = [Pending]).
Proof.
  destruct (DynStepper_ok p) as (inst & Hok & Htrack & _).
  exists inst. split; [exact Hok|]. rewrite Htrack.
  split; [apply renderTrack_length|].
  assert (forall i frag c,
            js_length (steps p) <= current p ->
            nth_error (renderTrack p (click_closure p)) i = Some frag ->
            frag_connector frag = Some c ->
            connector_completed c = true) as Hconn.
  { intros i frag c Hge Hfrag Hc. unfold renderTrack in Hfrag.
    rewrite array_map_nth in Hfrag.
    destruct (nth_error (steps p) i) as [step|] eqn:Hi; [|discriminate].
    injection Hfrag as <-. rewrite renderStep_connector in Hc.
    destruct (default true (showConnectors p) &&
              (Z.of_nat i <? js_length (steps p) - 1)); [|discriminate].
    assert (connector_completed c = (Z.of_nat i <? current p)) as ->.
    { rewrite <- (connector_completed_spec (Z.of_nat i <? current p)).
      f_equal. congruence. }
    apply Z.ltb_lt. apply nth_error_in_range in Hi. lia. }
  split; [intros Hge; split; [|split]|].
  - intros i step Hi Hnone.
    exists (renderStep p (click_closure p) step (Z.of_nat i)).
    split; [now apply renderTrack_nth|].
    rewrite renderStep_displayed, getStepStatus_complete; auto.
    apply nth_error_in_range in Hi. lia.
  - intros i frag c. now apply Hconn.
  - intros Hshow i Hlt.
    destruct (nth_error (renderTrack p (click_closure p)) i) as [frag|]
      eqn:Ei.
    + pose proof (renderTrack_connector _ _ _ _ Hshow Ei Hlt) as Hc.
      eexists frag, _. split; [reflexivity|]. split; [exact Hc|].
      now apply (Hconn i frag _ Hge Ei).
    + apply nth_error_None in Ei. rewrite renderTrack_length in Ei. lia.
  - intros Hneg i step Hi Hnone.
    exists (renderStep p (click_closure p) step (Z.of_nat i)).
    split; [now apply renderTrack_nth|].
    rewrite renderStep_displayed, getStepStatus_pending; auto. lia.
Qed.

End StepperFacts.

(* ================================================================= *)
(** ** DynMenuItem: activation *)

Module MenuFacts.
Import Menu.

Lemma activate_spec (p : DynMenuItemProps) (a : Activation) :
  activate (DynMenuItem p) a =
  if default false (divider p) then Done []
  else match a with
       | PointerClick =>
           handleClick (value p) (onClick p) (default false (disabled p))
       | KeyPress k =>
           if is_activation_key k
           then handleClick (value p) (onClick p)
                  (default false (disabled p))
           else Done []
       end.
Proof.
  unfold activate, DynMenuItem.
  destruct (default false (divider p)), a; simpl; try reflexivity.
  unfold handleKeyDown. simpl.
  destruct (is_activation_key k); reflexivity.
Qed.

Lemma divider_is_separator (p : DynMenuItemProps) :
  default false (divider p) = true ->
  exists s, DynMenuItem p = Separator s /\ sep_role s = "separator".
Proof.
  intros H. unfold DynMenuItem. rewrite H. eexists. split; reflexivity.
Qed.

(** C8. A click, or Enter or Space while focused, calls the host
    callback with the item's [value] if and only if [divider] is false,
    [disabled] is false and a callback is supplied, and makes no call
    otherwise.  A divider is a separator without handlers, so it ignores
    a supplied [onClick]; a disabled item never calls the callback. *)
Theorem C8_menu_activation (p : DynMenuItemProps) (a : Activation) :
  In a [PointerClick; KeyPress "Enter"; KeyPress " "] ->
  (forall f,
     activate (DynMenuItem p) a = Done [OnClick f (value p)] <->
     default false (divider p) = false /\
     default false (disabled p) = false /\
     onClick p = Some f) /\
  ((exists f, activate (DynMenuItem p) a = Done [OnClick f (value p)]) \/
   activate (DynMenuItem p) a = Done []) /\
  (default false (divider p) = true ->
   (exists s, DynMenuItem p = Separator s /\ sep_role s = "separator") /\
   onClick_of (DynMenuItem p) = None /\
   onKeyDown_of (DynMenuItem p) = None /\
   forall a', activate (DynMenuItem p) a' = Done []) /\
  (default false (disabled p) = true ->
   forall a', activate (DynMenuItem p) a' = Done []).
Proof.
  intros Ha.
  assert (activate (DynMenuItem p) a =
          if default false (divider p) then Done []
          else handleClick (value p) (onClick p)
                 (default false (disabled p))) as Hact.
  { rewrite activate_spec.
    destruct Ha as [<-|[<-|[<-|[]]]]; reflexivity. }
  rewrite Hact. unfold handleClick.
  split; [|split; [|split]].
  - intros f.
    destruct (default false (divider p)), (default false (disabled p)),
      (onClick p) as [g|]; simpl; split;
      try discriminate; try tauto;
      try (intros (_ & _ & H); discriminate H);
      try (intros (H & _); discriminate H);
      try (intros (_ & H & _); discriminate H).
    + intros H. injection H as ->. auto.
    + intros (_ & _ & H). injection H as ->. reflexivity.
  - destruct (default false (divider p)), (default false (disabled p)),
      (onClick p) as [g|]; simpl; eauto.
  - intros Hd. split; [now apply divider_is_separator|].
    split; [|split].
    + unfold onClick_of, DynMenuItem. now rewrite Hd.
    + unfold onKeyDown_of, DynMenuItem. now rewrite Hd.
    + intros a'. now rewrite activate_spec, Hd.
  - intros Hd a'. rewrite activate_spec, Hd. unfold handleClick. simpl.
    destruct (default false (divider p)), a'; try reflexivity.
    destruct (is_activation_key k); reflexivity.
Qed.

(** C8 on a menu row with a callback, activated with Enter. *)
Lemma C8_menu_activation_witness :
  In (KeyPress "Enter") [PointerClick; KeyPress "Enter"; KeyPress " "] /\
  activate (DynMenuItem Examples.save_item) (KeyPress "Enter") =
    Done [OnClick Examples.host_fn (Some "save")].
Proof.
  split; [right; left; reflexivity|].
  apply (C8_menu_activation Examples.save_item (KeyPress "Enter")).
  - right; left; reflexivity.
  - repeat split.
Defined.

End MenuFacts.

(* ================================================================= *)
(** ** DynStepper across renders *)

Module HooksFacts.
Import Stepper Hooks.

Lemma dep_is_eq (a b : Dep) : dep_is a b = true <-> a = b.
Proof.
  split.
  - destruct a as [x|x|[x|]|x|x|x], b as [y|y|[y|]|y|y|y]; simpl;
      try discriminate; try reflexivity; intros H; f_equal.
    + now apply Bool.eqb_prop.
    + now apply Z.eqb_eq.
    + f_equal. now apply Nat.eqb_eq.
    + now apply Nat.eqb_eq.
    + now apply Nat.eqb_eq.
    + now apply Nat.eqb_eq.
  - intros <-. destruct a as [x|x|[x|]|x|x|x]; simpl;
      auto using Bool.eqb_reflx, Z.eqb_refl, Nat.eqb_refl.
Qed.

Lemma deps_equal_eq (prev next : list Dep) :
  deps_equal prev next = true <-> prev = next.
Proof.
  revert next. induction prev as [|a prev IH]; intros [|b next]; simpl;
    try (split; [discriminate|discriminate]); [tauto|].
  rewrite andb_true_iff, dep_is_eq, IH. split.
  - intros (-> & ->). reflexivity.
  - intros H. injection H as -> ->. auto.
Qed.

Lemma deps_equal_refl (deps : list Dep) : deps_equal deps deps = true.
Proof. now apply deps_equal_eq. Qed.

Section Cells.
Context {F : Type}.
Variables (c : MemoCell F) (callback : F) (deps : list Dep).

Lemma useCallback_deps (prev : option (MemoCell F)) :
  memo_deps (useCallback prev callback deps) = deps.
Proof.
  destruct prev as [c0|]; simpl; [|reflexivity].
  destruct (deps_equal (memo_deps c0) deps) eqn:E; [|reflexivity].
  now apply deps_equal_eq.
Qed.

(** A second render with the same dependencies keeps the cell. *)
Lemma useCallback_again (prev : option (MemoCell F)) (callback' : F) :
  useCallback (Some (useCallback prev callback deps)) callback' deps =
  useCallback prev callback deps.
Proof.
  unfold useCallback at 1. now rewrite useCallback_deps, deps_equal_refl.
Qed.

(** A cell whose generation is unchanged is the same object. *)
Lemma useCallback_same_generation :
  memo_generation (useCallback (Some c) callback deps) = memo_generation c ->
  useCallback (Some c) callback deps = c.
Proof.
  simpl. destruct (deps_equal (memo_deps c) deps); [reflexivity|].
  simpl. intros H. exfalso. revert H. apply Nat.neq_succ_diag_l.
Qed.

(** A cell whose value is the one its dependencies determine holds the
    callback of this render after it. *)
Lemma useCallback_value :
  (memo_deps c = deps -> memo_value c = callback) ->
  memo_value (useCallback (Some c) callback deps) = callback.
Proof.
  intros H. simpl.
  destruct (deps_equal (memo_deps c) deps) eqn:E; [|reflexivity].
  apply H. now apply deps_equal_eq.
Qed.
End Cells.

Lemma mount_settles (hp : HostProps) :
  settled hp (snd (DynStepper_render None hp)).
Proof. unfold settled. simpl. repeat split. Qed.

Lemma update_settles (heap : ArrRef -> list StepData)
  (h : HookState) (hp0 hp : HostProps) :
  settled hp0 h ->
  steps (props hp0) = heap (steps_ref hp0) ->
  steps (props hp) = heap (steps_ref hp) ->
  settled hp (snd (DynStepper_render (Some h) hp)).
Proof.
  intros ((Hcv & Hcd) & (Hgv & Hgd) & (Hnv & Hnd) & (Hpv & Hpd) & (Hhv & Hhd))
    Hheap0 Hheap.
  unfold settled, DynStepper_render. cbn [snd option_map].
  cbn [cell_handleStepClick cell_goToStep cell_nextStep cell_previousStep
       cell_handle].
  set (p := props hp) in *. set (p0 := props hp0) in *.
  set (c_goto := useCallback (Some (cell_goToStep h)) _ _).
  set (c_next := useCallback (Some (cell_nextStep h)) _ _).
  set (c_prev := useCallback (Some (cell_previousStep h)) _ _).
  assert (memo_value c_goto = goToStep (steps p) (onChange p)) as Hg.
  { apply useCallback_value. rewrite Hgd, Hgv. intros H.
    injection H as Hr Ho. now rewrite Hheap0, Hheap, Hr, Ho. }
  assert (memo_generation c_goto = memo_generation (cell_goToStep h) ->
          memo_value c_goto = memo_value (cell_goToStep h)) as Hkeep.
  { intros H. subst c_goto. now rewrite useCallback_same_generation. }
  assert (memo_value c_next =
          nextStep (current p) (steps p) (memo_value c_goto)) as Hn.
  { apply useCallback_value. rewrite Hnd, Hnv. intros H.
    injection H as Hc Hl Hgen. rewrite Hkeep by congruence.
    unfold nextStep. now rewrite Hc, Hl. }
  assert (memo_value c_prev =
          previousStep (current p) (memo_value c_goto)) as Hp.
  { apply useCallback_value. rewrite Hpd, Hpv. intros H.
    injection H as Hc Hgen. rewrite Hkeep by congruence.
    now rewrite Hc. }
  repeat split; try apply useCallback_deps; try assumption.
  - apply useCallback_value. rewrite Hcd, Hcv. intros H.
    injection H as -> -> ->. reflexivity.
  - apply useCallback_value. rewrite Hhd, Hhv. intros H.
    injection H as H1 H2 H3 _.
    rewrite Hkeep by congruence. f_equal.
    + subst c_next. now rewrite useCallback_same_generation by congruence.
    + subst c_prev. now rewrite useCallback_same_generation by congruence.
Qed.

Lemma reachable_settled (heap : ArrRef -> list StepData) (h : HookState) :
  reachable heap h ->
  exists hp0, settled hp0 h /\ steps (props hp0) = heap (steps_ref hp0).
Proof.
  induction 1 as [hp Hheap|h hp _ (hp0 & Hs & Hheap0) Hheap].
  - exists hp. split; [apply mount_settles|exact Hheap].
  - exists hp. split; [|exact Hheap].
    now apply update_settles with (heap := heap) (hp0 := hp0).
Qed.

(** On a settled state the render yields what the closures of this
    render yield. *)
Lemma settled_output (hooks : option HookState) (hp : HostProps) :
  settled hp (snd (DynStepper_render hooks hp)) ->
  fst (DynStepper_render hooks hp) = DynStepper (props hp).
Proof.
  intros ((Hcv & _) & (Hgv & _) & (Hnv & _) & (Hpv & _) & (Hhv & _)).
  unfold DynStepper_render in *. cbn [fst snd] in *.
  cbn [cell_handleStepClick cell_goToStep cell_nextStep cell_previousStep
       cell_handle] in *.
  rewrite Hcv, Hhv, Hnv, Hpv, Hgv. reflexivity.
Qed.

(** Rendering again with identical props keeps every cell. *)
Lemma render_again (hooks : option HookState) (hp : HostProps) :
  DynStepper_render (Some (snd (DynStepper_render hooks hp))) hp =
  DynStepper_render hooks hp.
Proof.
  unfold DynStepper_render. cbn [snd option_map].
  cbn [cell_handleStepClick cell_goToStep cell_nextStep cell_previousStep
       cell_handle].
  rewrite !useCallback_again. reflexivity.
Qed.

(** C9. Rendering is deterministic.  Whatever renders came before, a
    render of [DynStepper] yields the markup and the handle that its
    props alone determine, and rendering again with identical props
    yields the identical output and leaves every hook cell as it was;
    [DynMenuItem] has no cell at all, its output is a function of its
    props. *)
Theorem C9_render_deterministic
  (heap : ArrRef -> list StepData) (hooks : option HookState)
  (hp : HostProps) (hm : option unit) (mp : Menu.DynMenuItemProps) :
  (forall h, hooks = Some h -> reachable heap h) ->
  steps (props hp) = heap (steps_ref hp) ->
  fst (DynStepper_render hooks hp) = DynStepper (props hp) /\
  DynStepper_render (Some (snd (DynStepper_render hooks hp))) hp =
    DynStepper_render hooks hp /\
  fst (DynMenuItem_render hm mp) = Menu.DynMenuItem mp /\
  DynMenuItem_render (Some (snd (DynMenuItem_render hm mp))) mp =
    DynMenuItem_render hm mp.
Proof.
  intros Hreach Hheap. split; [|split; [apply render_again|split; reflexivity]].
  apply settled_output. destruct hooks as [h|].
  - destruct (reachable_settled heap h (Hreach h eq_refl))
      as (hp0 & Hs & Hheap0).
    now apply update_settles with (heap := heap) (hp0 := hp0).
  - apply mount_settles.
Qed.

(** C9 on the wizard: mounted at [current = 0], then rendered at
    [current = 1]. *)
Lemma C9_render_deterministic_witness :
  let mounted :=
    Some (snd (DynStepper_render None (Examples.wizard_render 0))) in
  (forall h, mounted = Some h -> reachable Examples.host_heap h) /\
  steps (props (Examples.wizard_render 1)) =
    Examples.host_heap (steps_ref (Examples.wizard_render 1)) /\
  fst (DynStepper_render mounted (Examples.wizard_render 1)) =
    DynStepper (Examples.wizard 1).
Proof.
  intros mounted.
  assert (forall h, mounted = Some h -> reachable Examples.host_heap h)
    as Hreach.
  { intros h H. injection H as <-.
    exact (@reach_mount Examples.host_heap (Examples.wizard_render 0)
             eq_refl). }
  split; [exact Hreach|]. split; [reflexivity|].
  apply (C9_render_deterministic Examples.host_heap mounted
           (Examples.wizard_render 1) None Examples.save_item Hreach
           eq_refl).
Defined.

End HooksFacts.

(* ================================================================= *)
(** ** The scenarios of the specification, evaluated *)

Module Scenarios.
Import Stepper Examples.

(** Steps A, B, C with [current = 1]: A is complete, B current and C
    pending; clicking A fires [onChange(0, A)], clicking C fires
    nothing. *)
Example scenario_three_steps :
  exists inst,
    DynStepper (wizard 1) = Ok inst /\
    map (fun f => displayed_status (frag_step f)) (track (element inst)) =
      [[Complete]; [Current]; [Pending]] /\
    map click (track (element inst)) =
      [Done [OnChange host_fn 0 stepA]; Done [OnChange host_fn 1 stepB];
       Done []] /\
    aria_valuetext (element inst) = Some "B" /\
    aria_valuemax (element inst) = 2.
Proof. eexists. split; [reflexivity|]. repeat split. Qed.

(** Steps A, B with [current = 0]: [previousStep()] does nothing and
    [nextStep()] fires [onChange(1, B)]. *)
Example scenario_two_steps :
  exists inst,
    DynStepper (two_steps 0) = Ok inst /\
    ref_previousStep (handle inst) = Done [] /\
    ref_nextStep (handle inst) = Done [OnChange host_fn 1 stepB].
Proof. eexists. split; [reflexivity|]. split; reflexivity. Qed.

(** A divider ignores the supplied [onClick]; a disabled item never
    calls it, by click or by Enter. *)
Example scenario_menu :
  Menu.activate (Menu.DynMenuItem (menu_item None (Some true)))
    Menu.PointerClick = Done [] /\
  Menu.activate (Menu.DynMenuItem (menu_item (Some true) None))
    Menu.PointerClick = Done [] /\
  Menu.activate (Menu.DynMenuItem (menu_item (Some true) None))
    (Menu.KeyPress "Enter") = Done [] /\
  Menu.activate (Menu.DynMenuItem (menu_item None None))
    Menu.PointerClick = Done [Menu.OnClick host_fn (Some "save")].
Proof. repeat split. Qed.

(** An out-of-range [current] on either side. *)
Example scenario_out_of_range :
  exists below above,
    DynStepper (wizard (-1)) = Ok below /\
    DynStepper (wizard 7) = Ok above /\
    map (fun f => displayed_status (frag_step f)) (track (element below)) =
      [[Pending]; [Pending]; [Pending]] /\
    map (fun f => displayed_status (frag_step f)) (track (element above)) =
      [[Complete]; [Complete]; [Complete]] /\
    aria_valuetext (element below) = None /\
    aria_valuetext (element above) = None.
Proof. do 2 eexists. do 2 (split; [reflexivity|]). repeat split. Qed.

End Scenarios.

(* ================================================================= *)
(** ** DynStepper: more of what a render yields *)

Module StepperMore.
Import Stepper Events StepperFacts.

Lemma map_map_from {A B C : Type} (g : B -> C) (f : A -> Z -> B)
  (h : A -> C) (l : list A) :
  (forall x k, g (f x k) = h x) ->
  forall k, map g (map_from f k l) = map h l.
Proof.
  intros Hg. induction l as [|x r IH]; intros k; simpl; [reflexivity|].
  now rewrite Hg, IH.
Qed.

Lemma is_activation_key_spec (k : string) :
  is_activation_key k = true <-> k = "Enter" \/ k = " ".
Proof.
  unfold is_activation_key. rewrite orb_true_iff, !String.eqb_eq. tauto.
Qed.

Lemma rendered_step (p : DynStepperProps) (i : nat) (step : StepData) :
  nth_error (steps p) i = Some step ->
  exists inst,
    DynStepper p = Ok inst /\
    nth_error (track (element inst)) i =
      Some (renderStep p (click_closure p) step (Z.of_nat i)).
Proof.
  intros Hi. destruct (DynStepper_ok p) as (inst & Hok & Htrack & _).
  exists inst. split; [exact Hok|]. rewrite Htrack.
  now apply renderTrack_nth.
Qed.

Lemma not_clickable (p : DynStepperProps) step index :
  ~ (default true (clickable p) = true /\
     truthy_flag (disabled step) = false /\
     index <= current p) ->
  isClickable p step index = false.
Proof.
  intros H. destruct (isClickable p step index) eqn:E; [|reflexivity].
  apply isClickable_spec in E. contradiction.
Qed.





(** X2. The track holds one fragment per step, in the order of [steps]:
    the fragment keys are the step keys and the rendered titles are the
    step titles, position by position. *)
Theorem X2_track_order (p : DynStepperProps) :
  exists inst,
    DynStepper p = Ok inst /\
    List.length (track (element inst)) = List.length (steps p) /\
    map frag_key (track (element inst)) = map key (steps p) /\
    map (fun f => step_title (frag_step f)) (track (element inst)) =
      map title (steps p).
Proof.
  destruct (DynStepper_ok p) as (inst & Hok & Htrack & _).
  exists inst. split; [exact Hok|]. rewrite Htrack.
  split; [apply renderTrack_length|].
  unfold renderTrack, array_map.
  split; apply map_map_from; reflexivity.
Qed.

(** X3. A rendered step is a button exactly when it is navigable
    ([clickable], not disabled, at or before [current]): it then has
    the role [button], tab index 0, both handlers and the [--clickable]
    class; otherwise it has none of the five. *)
Theorem X3_button_markup (p : DynStepperProps) (i : nat) (step : StepData) :
  nth_error (steps p) i = Some step ->
  exists inst frag,
    DynStepper p = Ok inst /\
    nth_error (track (element inst)) i = Some frag /\
    ((default true (clickable p) = true /\
      truthy_flag (disabled step) = false /\
      Z.of_nat i <= current p) ->
     step_role (frag_step frag) = Some "button" /\
     step_tabIndex (frag_step frag) = Some 0 /\
     step_onClick (frag_step frag) <> None /\
     step_onKeyDown (frag_step frag) <> None /\
     has_class "dyn-stepper__step--clickable"
       (step_classes (frag_step frag)) = true) /\
    (~ (default true (clickable p) = true /\
        truthy_flag (disabled step) = false /\
        Z.of_nat i <= current p) ->
     step_role (frag_step frag) = None /\
     step_tabIndex (frag_step frag) = None /\
     step_onClick (frag_step frag) = None /\
     step_onKeyDown (frag_step frag) = None /\
     has_class "dyn-stepper__step--clickable"
       (step_classes (frag_step frag)) = false).
Proof.
  intros Hi. destruct (rendered_step p i step Hi) as (inst & Hok & Hfrag).
  exists inst, (renderStep p (click_closure p) step (Z.of_nat i)).
  split; [exact Hok|]. split; [exact Hfrag|].
  unfold renderStep. simpl frag_step.
  cbn [step_role step_tabIndex step_onClick step_onKeyDown step_classes].
  split; intros H.
  - apply isClickable_spec in H. rewrite H.
    repeat split; try discriminate.
    destruct (getStepStatus (current p) (Z.of_nat i) step),
      (truthy_flag (disabled step)); reflexivity.
  - apply not_clickable in H. rewrite H.
    repeat split.
    destruct (getStepStatus (current p) (Z.of_nat i) step),
      (truthy_flag (disabled step)); reflexivity.
Qed.

Lemma X3_button_markup_witness :
  nth_error (steps (Examples.wizard 1)) 2 = Some Examples.stepC /\
  exists inst frag,
    DynStepper (Examples.wizard 1) = Ok inst /\
    nth_error (track (element inst)) 2 = Some frag /\
    step_role (frag_step frag) = None.
Proof.
  split; [reflexivity|].
  destruct (X3_button_markup (Examples.wizard 1) 2 Examples.stepC eq_refl)
    as (inst & frag & H1 & H2 & _ & H4).
  exists inst, frag. split; [exact H1|]. split; [exact H2|].
  apply H4. simpl. intros (_ & _ & H). lia.
Defined.

(** X4. A step carries the [--disabled] class exactly when its
    [disabled] is truthy, and such a step is never a button and answers
    no click and no key, wherever [current] is. *)
Theorem X4_disabled_step (p : DynStepperProps) (i : nat) (step : StepData) :
  nth_error (steps p) i = Some step ->
  exists inst frag,
    DynStepper p = Ok inst /\
    nth_error (track (element inst)) i = Some frag /\
    has_class "dyn-stepper__step--disabled" (step_classes (frag_step frag))
      = truthy_flag (disabled step) /\
    (truthy_flag (disabled step) = true ->
     step_role (frag_step frag) = None /\
     click frag = Done [] /\
     forall k, keydown frag k = Done []).
Proof.
  intros Hi. destruct (rendered_step p i step Hi) as (inst & Hok & Hfrag).
  exists inst, (renderStep p (click_closure p) step (Z.of_nat i)).
  split; [exact Hok|]. split; [exact Hfrag|]. split.
  - unfold renderStep. simpl frag_step. cbn [step_classes].
    destruct (getStepStatus (current p) (Z.of_nat i) step),
      (isClickable p step (Z.of_nat i)), (truthy_flag (disabled step));
      reflexivity.
  - intros Hd.
    assert (isClickable p step (Z.of_nat i) = false) as Hn.
    { apply not_clickable. intros (_ & H & _). congruence. }
    split; [|split].
    + unfold renderStep. simpl. now rewrite Hn.
    + now rewrite click_renderStep, Hn.
    + intros k. now rewrite keydown_renderStep, Hn.
Qed.

Lemma X4_disabled_step_witness :
  let p := Examples.wizard_of
             [Examples.locked_step "a" "A"; Examples.stepB] 1 in
  nth_error (steps p) 0 = Some (Examples.locked_step "a" "A") /\
  exists inst frag,
    DynStepper p = Ok inst /\
    nth_error (track (element inst)) 0 = Some frag /\
    click frag = Done [].
Proof.
  intros p. split; [reflexivity|].
  destruct (X4_disabled_step p 0 (Examples.locked_step "a" "A") eq_refl)
    as (inst & frag & H1 & H2 & _ & H4).
  exists inst, frag. split; [exact H1|]. split; [exact H2|].
  now apply H4.
Defined.

(** X5. The key handler of a step calls [preventDefault] exactly when
    the step is navigable and the key is Enter or Space; any other key
    makes no call and leaves the default action alone. *)
Theorem X5_key_handling (p : DynStepperProps) (i : nat) (step : StepData)
  (k : string) :
  nth_error (steps p) i = Some step ->
  exists inst frag,
    DynStepper p = Ok inst /\
    nth_error (track (element inst)) i = Some frag /\
    (defaultPrevented (keydown_result frag k) = true <->
     (default true (clickable p) = true /\
      truthy_flag (disabled step) = false /\
      Z.of_nat i <= current p) /\
     (k = "Enter" \/ k = " ")) /\
    (k <> "Enter" -> k <> " " ->
     keydown frag k = Done [] /\
     defaultPrevented (keydown_result frag k) = false).
Proof.
  intros Hi. destruct (rendered_step p i step Hi) as (inst & Hok & Hfrag).
  exists inst, (renderStep p (click_closure p) step (Z.of_nat i)).
  split; [exact Hok|]. split; [exact Hfrag|].
  rewrite <- isClickable_spec, <- is_activation_key_spec.
  unfold keydown, keydown_result, renderStep. simpl.
  destruct (isClickable p step (Z.of_nat i)); simpl.
  - destruct (is_activation_key k) eqn:E; simpl.
    + split; [tauto|]. intros H1 H2.
      apply is_activation_key_spec in E. tauto.
    + split; [|auto]. split; [discriminate|]. intros (_ & H). discriminate.
  - split; [|auto]. split; [discriminate|]. intros (H & _). discriminate.
Qed.

Lemma X5_key_handling_witness :
  nth_error (steps (Examples.wizard 1)) 0 = Some Examples.stepA /\
  exists inst frag,
    DynStepper (Examples.wizard 1) = Ok inst /\
    nth_error (track (element inst)) 0 = Some frag /\
    defaultPrevented (keydown_result frag " ") = true.
Proof.
  split; [reflexivity|].
  destruct (X5_key_handling (Examples.wizard 1) 0 Examples.stepA " "
              eq_refl)
    as (inst & frag & H1 & H2 & H3 & _).
  exists inst, frag. split; [exact H1|]. split; [exact H2|].
  apply H3. split; [|now right].
  split; [reflexivity|]. split; [reflexivity|]. simpl. lia.
Defined.

(** *** Every way to reach the host *)

Lemma renderTrack_inv (p : DynStepperProps) h (i : nat) (f : Fragment) :
  nth_error (renderTrack p h) i = Some f ->
  exists step,
    nth_error (steps p) i = Some step /\
    f = renderStep p h step (Z.of_nat i).
Proof.
  unfold renderTrack. rewrite array_map_nth.
  destruct (nth_error (steps p) i) as [step|]; [|discriminate].
  intros H. injection H as <-. now exists step.
Qed.









(** *** Without connectors *)

Lemma track_children_bare (t : list Fragment) :
  (forall f, In f t -> frag_connector f = None) ->
  track_children t = map (fun f => StepChild (frag_step f)) t.
Proof.
  induction t as [|f t IH]; intros H; [reflexivity|].
  unfold track_children in *. simpl. unfold fragment_children at 1.
  rewrite (H f (or_introl eq_refl)). simpl. f_equal.
  apply IH. intros g Hg. apply H. now right.
Qed.

(** X8. With [showConnectors] false no connector is rendered: the
    children of the track are the steps alone, one per entry of [steps]
    and in their order. *)
Theorem X8_no_connectors (p : DynStepperProps) :
  showConnectors p = Some false ->
  exists inst,
    DynStepper p = Ok inst /\
    (forall f, In f (track (element inst)) -> frag_connector f = None) /\
    track_children (track (element inst)) =
      map (fun f => StepChild (frag_step f)) (track (element inst)) /\
    List.length (track_children (track (element inst))) =
      List.length (steps p).
Proof.
  intros Hshow. destruct (DynStepper_ok p) as (inst & Hok & Htrack & _).
  exists inst. split; [exact Hok|]. rewrite Htrack.
  assert (forall f, In f (renderTrack p (click_closure p)) ->
                    frag_connector f = None) as Hnone.
  { intros f Hf. apply In_nth_error in Hf. destruct Hf as (i & Hi).
    apply renderTrack_inv in Hi. destruct Hi as (step & _ & ->).
    rewrite renderStep_connector, Hshow. reflexivity. }
  split; [exact Hnone|].
  rewrite (track_children_bare _ Hnone).
  split; [reflexivity|]. rewrite length_map. apply renderTrack_length.
Qed.

Lemma X8_no_connectors_witness :
  showConnectors (Examples.bare_wizard 1) = Some false /\
  exists inst,
    DynStepper (Examples.bare_wizard 1) = Ok inst /\
    List.length (track_children (track (element inst))) = 3%nat.
Proof.
  split; [reflexivity|].
  destruct (X8_no_connectors (Examples.bare_wizard 1) eq_refl)
    as (inst & H1 & _ & _ & H4).
  exists inst. split; [exact H1|exact H4].
Defined.

(** *** Moving by one step *)

(** X9. With a callback supplied, [nextStep()] fires
    [onChange(current + 1, steps[current + 1])] exactly when
    [-1 <= current < length - 1] and that step is not disabled, and
    [previousStep()] fires [onChange(current - 1, steps[current - 1])]
    exactly when [0 < current <= length] and that step is not disabled.
    A disabled neighbour is not skipped: the operation does nothing. *)
Theorem X9_single_moves (p : DynStepperProps) (f : FnRef) :
  onChange p = Some f ->
  exists inst,
    DynStepper p = Ok inst /\
    (forall s,
       ref_nextStep (handle inst) = Done [OnChange f (current p + 1) s] <->
       -1 <= current p < js_length (steps p) - 1 /\
       js_index (steps p) (current p + 1) = Some s /\
       truthy_flag (disabled s) = false) /\
    (forall s,
       ref_previousStep (handle inst) = Done [OnChange f (current p - 1) s]
       <->
       0 < current p <= js_length (steps p) /\
       js_index (steps p) (current p - 1) = Some s /\
       truthy_flag (disabled s) = false) /\
    (forall s,
       js_index (steps p) (current p + 1) = Some s ->
       truthy_flag (disabled s) = true ->
       ref_nextStep (handle inst) = Done []) /\
    (forall s,
       js_index (steps p) (current p - 1) = Some s ->
       truthy_flag (disabled s) = true ->
       ref_previousStep (handle inst) = Done []).
Proof.
  intros Hf.
  destruct (DynStepper_ok p)
    as (inst & Hok & _ & _ & _ & _ & _ & _ & Hnext & Hprev).
  exists inst. split; [exact Hok|].
  rewrite Hnext, Hprev. unfold nextStep, previousStep, goto_closure.
  rewrite !goToStep_spec, Hf.
  split; [|split; [|split]].
  - intros s.
    destruct (Z.ltb_spec (current p) (js_length (steps p) - 1)) as [Hlt|Hge].
    + destruct (js_index (steps p) (current p + 1)) as [s0|] eqn:E.
      * pose proof (js_index_in_range _ _ _ E) as Hr.
        destruct (truthy_flag (disabled s0)) eqn:D; simpl.
        -- split; [discriminate|]. intros (_ & H & H'). congruence.
        -- split.
           ++ intros H. injection H as <-. repeat split; auto; lia.
           ++ intros (_ & H & _). congruence.
      * split; [discriminate|]. intros (_ & H & _). discriminate.
    + split; [discriminate|]. intros (H & _). lia.
  - intros s.
    destruct (Z.gtb_spec (current p) 0) as [Hgt|Hle].
    + destruct (js_index (steps p) (current p - 1)) as [s0|] eqn:E.
      * pose proof (js_index_in_range _ _ _ E) as Hr.
        destruct (truthy_flag (disabled s0)) eqn:D; simpl.
        -- split; [discriminate|]. intros (_ & H & H'). congruence.
        -- split.
           ++ intros H. injection H as <-. repeat split; auto; lia.
           ++ intros (_ & H & _). congruence.
      * split; [discriminate|]. intros (_ & H & _). discriminate.
    + split; [discriminate|]. intros (H & _). lia.
  - intros s -> ->.
    destruct (current p <? js_length (steps p) - 1); reflexivity.
  - intros s -> ->. destruct (current p >? 0); reflexivity.
Qed.

(** X9 one past the end: at [current = 3] of three steps,
    [previousStep()] goes to the last step. *)
Lemma X9_single_moves_witness :
  onChange (Examples.wizard 3) = Some Examples.host_fn /\
  exists inst,
    DynStepper (Examples.wizard 3) = Ok inst /\
    ref_previousStep (handle inst) =
      Done [OnChange Examples.host_fn 2 Examples.stepC].
Proof.
  split; [reflexivity|].
  destruct (X9_single_moves (Examples.wizard 3) Examples.host_fn eq_refl)
    as (inst & H1 & _ & H3 & _).
  exists inst. split; [exact H1|].
  apply (H3 Examples.stepC). split; [|split; reflexivity].
  unfold js_length. simpl. lia.
Defined.

(** *** Status overrides and navigation *)

(** X10. An explicit [status] changes what a step is displayed as and
    never whether it can be activated: the step shows the override, and
    it is a button that fires [onChange] under exactly the conditions of
    a step without override.  So a step marked [complete] after
    [current] shows the complete glyph and cannot be clicked. *)
Theorem X10_override_and_navigation
  (p : DynStepperProps) (i : nat) (step : StepData) (st : StepStatus)
  (f : FnRef) :
  nth_error (steps p) i = Some step ->
  status step = Some st ->
  onChange p = Some f ->
  exists inst frag,
    DynStepper p = Ok inst /\
    nth_error (track (element inst)) i = Some frag /\
    displayed_status (frag_step frag) = [st] /\
    (step_role (frag_step frag) = Some "button" <->
     default true (clickable p) = true /\
     truthy_flag (disabled step) = false /\
     Z.of_nat i <= current p) /\
    (click frag = Done [OnChange f (Z.of_nat i) step] <->
     default true (clickable p) = true /\
     truthy_flag (disabled step) = false /\
     Z.of_nat i <= current p) /\
    (st = Complete -> current p < Z.of_nat i ->
     step_indicator (frag_step frag) = DynIcon "check" "sm" /\
     click frag = Done []).
Proof.
  intros Hi Hst Hf.
  destruct (rendered_step p i step Hi) as (inst & Hok & Hfrag).
  exists inst, (renderStep p (click_closure p) step (Z.of_nat i)).
  split; [exact Hok|]. split; [exact Hfrag|].
  split; [rewrite renderStep_displayed;
          now rewrite (getStepStatus_override _ _ _ _ Hst)|].
  rewrite <- isClickable_spec.
  rewrite click_renderStep, click_closure_spec, Hf.
  split; [|split].
  - unfold renderStep. simpl.
    destruct (isClickable p step (Z.of_nat i)); split;
      congruence || discriminate.
  - destruct (isClickable p step (Z.of_nat i)); simpl; split;
      congruence || discriminate.
  - intros -> Hlt. split.
    + unfold renderStep, renderIndicator. simpl.
      now rewrite (getStepStatus_override _ _ _ _ Hst).
    + rewrite not_clickable; [reflexivity|]. intros (_ & _ & H). lia.
Qed.

Lemma X10_override_and_navigation_witness :
  let last := Examples.done_step "c" "C" in
  let p := Examples.wizard_of [Examples.stepA; Examples.stepB; last] 0 in
  nth_error (steps p) 2 = Some last /\
  status last = Some Complete /\
  onChange p = Some Examples.host_fn /\
  exists inst frag,
    DynStepper p = Ok inst /\
    nth_error (track (element inst)) 2 = Some frag /\
    displayed_status (frag_step frag) = [Complete] /\
    click frag = Done [].
Proof.
  intros last p. repeat (split; [reflexivity|]).
  destruct (X10_override_and_navigation p 2 last Complete Examples.host_fn
              eq_refl eq_refl eq_refl)
    as (inst & frag & H1 & H2 & H3 & _ & _ & H6).
  exists inst, frag. repeat (split; [assumption|]).
  apply H6; [reflexivity|simpl; lia].
Defined.

(** *** Ordinals *)

(** X12. When no step sets [status] or [icon] and numbers are shown,
    the indicators read, in order, a complete glyph for every step
    before [current] and the 1-based ordinal for every other step. *)
Theorem X12_ordinals (p : DynStepperProps) :
  (forall s, In s (steps p) ->
             status s = None /\ truthy_node (icon s) = false) ->
  default true (showNumbers p) = true ->
  exists inst,
    DynStepper p = Ok inst /\
    forall i frag,
      nth_error (track (element inst)) i = Some frag ->
      step_indicator (frag_step frag) =
      if Z.of_nat i <? current p then DynIcon "check" "sm"
      else StepNumber (Z.of_nat i + 1).
Proof.
  intros Hplain Hnum. destruct (DynStepper_ok p) as (inst & Hok & Htrack & _).
  exists inst. split; [exact Hok|]. rewrite Htrack. intros i frag Hfrag.
  apply renderTrack_inv in Hfrag. destruct Hfrag as (step & Hi & ->).
  destruct (Hplain step (nth_error_In _ _ Hi)) as (Hs & Hicon).
  unfold renderStep, renderIndicator, getStepStatus. simpl.
  rewrite Hs, Hicon, Hnum.
  destruct (Z.of_nat i <? current p); [reflexivity|].
  destruct (Z.of_nat i =? current p); reflexivity.
Qed.

Lemma X12_ordinals_witness :
  (forall s, In s (steps (Examples.wizard 1)) ->
             status s = None /\ truthy_node (icon s) = false) /\
  default true (showNumbers (Examples.wizard 1)) = true /\
  exists inst,
    DynStepper (Examples.wizard 1) = Ok inst /\
    map (fun f => step_indicator (frag_step f)) (track (element inst)) =
      [DynIcon "check" "sm"; StepNumber 2; StepNumber 3].
Proof.
  assert (forall s, In s (steps (Examples.wizard 1)) ->
                    status s = None /\ truthy_node (icon s) = false) as Hp.
  { intros s [<-|[<-|[<-|[]]]]; split; reflexivity. }
  split; [exact Hp|]. split; [reflexivity|].
  destruct (X12_ordinals (Examples.wizard 1) Hp eq_refl) as (inst & H1 & H2).
  exists inst. split; [exact H1|].
  assert (List.length (track (element inst)) = 3%nat) as Hlen.
  { pose proof H1 as H. vm_compute in H. injection H as <-. reflexivity. }
  destruct (track (element inst)) as [|a [|b [|c [|d t]]]]; try discriminate.
  simpl. rewrite (H2 0%nat a eq_refl), (H2 1%nat b eq_refl),
    (H2 2%nat c eq_refl). reflexivity.
Defined.

End StepperMore.

(* ================================================================= *)
(** ** DynStepper: which handlers survive a render *)

Module HooksMore.
Import Stepper Hooks HooksFacts.

(** A cell is kept exactly when the dependencies are the stored ones. *)
Lemma useCallback_kept_iff {F : Type} (c : MemoCell F) (callback : F)
  (deps : list Dep) :
  useCallback (Some c) callback deps = c <-> memo_deps c = deps.
Proof.
  split.
  - intros H. rewrite <- H at 1. apply useCallback_deps.
  - intros H. simpl. now rewrite H, deps_equal_refl.
Qed.

(** A cell is kept exactly when its generation is. *)
Lemma generation_kept_iff {F : Type} (c : MemoCell F) (callback : F)
  (deps : list Dep) :
  memo_generation (useCallback (Some c) callback deps) = memo_generation c
  <-> memo_deps c = deps.
Proof.
  rewrite <- (useCallback_kept_iff c callback deps). split.
  - apply useCallback_same_generation.
  - now intros ->.
Qed.

(** A cell that is not kept holds the new callback, as a new object. *)
Lemma useCallback_replaced {F : Type} (c : MemoCell F) (callback : F)
  (deps : list Dep) :
  memo_deps c <> deps ->
  useCallback (Some c) callback deps =
  {| memo_value := callback; memo_deps := deps;
     memo_generation := S (memo_generation c) |}.
Proof.
  intros H. simpl.
  destruct (deps_equal (memo_deps c) deps) eqn:E; [|reflexivity].
  apply deps_equal_eq in E. contradiction.
Qed.

Lemma handle_deps_eq (a b c r a' b' c' r' : nat) :
  [DClosure a; DClosure b; DClosure c; DRef r] =
  [DClosure a'; DClosure b'; DClosure c'; DRef r'] <->
  a' = a /\ b' = b /\ c' = c /\ r' = r.
Proof.
  split.
  - intros H. injection H as -> -> -> ->. auto.
  - intros (-> & -> & -> & ->). reflexivity.
Qed.

(** X13. Over two renders in a row, [handleStepClick] stays the same
    function object exactly when [clickable], [current] and [onChange]
    are unchanged, whatever happens to [steps] and the other props;
    otherwise it is replaced by the closure of the second render. *)
Theorem X13_click_handler_identity
  (hooks : option HookState) (hp0 hp : HostProps) :
  let h1 := snd (DynStepper_render hooks hp0) in
  let h2 := snd (DynStepper_render (Some h1) hp) in
  let unchanged :=
    default true (clickable (props hp)) =
      default true (clickable (props hp0)) /\
    current (props hp) = current (props hp0) /\
    onChange (props hp) = onChange (props hp0) in
  (cell_handleStepClick h2 = cell_handleStepClick h1 <-> unchanged) /\
  (~ unchanged ->
   memo_value (cell_handleStepClick h2) =
     handleStepClick (current (props hp)) (onChange (props hp))
       (default true (clickable (props hp))) /\
   memo_generation (cell_handleStepClick h2) =
     S (memo_generation (cell_handleStepClick h1))).
Proof.
  intros h1 h2 unchanged.
  assert (memo_deps (cell_handleStepClick h1) =
          [DBool (default true (clickable (props hp0)));
           DNum (current (props hp0)); DFn (onChange (props hp0))]) as Hd
    by apply useCallback_deps.
  assert (memo_deps (cell_handleStepClick h1) =
          [DBool (default true (clickable (props hp)));
           DNum (current (props hp)); DFn (onChange (props hp))]
          <-> unchanged) as Hiff.
  { rewrite Hd. subst unchanged. split.
    - intros H. injection H as -> -> ->. auto.
    - intros (-> & -> & ->). reflexivity. }
  split.
  - rewrite <- Hiff. apply useCallback_kept_iff.
  - intros Hn. rewrite <- Hiff in Hn. subst h2.
    unfold DynStepper_render. cbn [snd option_map cell_handleStepClick].
    now rewrite (useCallback_replaced _ _ _ Hn).
Qed.

(** X14. Over two renders in a row, [goToStep] stays the same function
    object exactly when the host passes the same [steps] array and the
    same [onChange]; a change of [current] alone never replaces it. *)
Theorem X14_goToStep_identity
  (hooks : option HookState) (hp0 hp : HostProps) :
  let h1 := snd (DynStepper_render hooks hp0) in
  let h2 := snd (DynStepper_render (Some h1) hp) in
  let unchanged :=
    steps_ref hp = steps_ref hp0 /\
    onChange (props hp) = onChange (props hp0) in
  (cell_goToStep h2 = cell_goToStep h1 <-> unchanged) /\
  (~ unchanged ->
   memo_value (cell_goToStep h2) =
     goToStep (steps (props hp)) (onChange (props hp)) /\
   memo_generation (cell_goToStep h2) =
     S (memo_generation (cell_goToStep h1))).
Proof.
  intros h1 h2 unchanged.
  assert (memo_deps (cell_goToStep h1) =
          [DArr (steps_ref hp0); DFn (onChange (props hp0))]) as Hd
    by apply useCallback_deps.
  assert (memo_deps (cell_goToStep h1) =
          [DArr (steps_ref hp); DFn (onChange (props hp))]
          <-> unchanged) as Hiff.
  { rewrite Hd. subst unchanged. split.
    - intros H. injection H as -> ->. auto.
    - intros (-> & ->). reflexivity. }
  split.
  - rewrite <- Hiff. apply useCallback_kept_iff.
  - intros Hn. rewrite <- Hiff in Hn. subst h2.
    unfold DynStepper_render. cbn [snd option_map cell_goToStep].
    now rewrite (useCallback_replaced _ _ _ Hn).
Qed.

(** X15. Over two renders in a row, the handle given to the host stays
    the same object exactly when [current], the length of [steps], the
    [steps] array, [onChange] and the [ref] the host passes are all
    unchanged; a new [ref] alone re-creates the handle.  [nextStep] and
    [previousStep] stay the same function objects when the first four
    are unchanged, whatever the [ref]. *)
Theorem X15_handle_identity
  (hooks : option HookState) (hp0 hp : HostProps) :
  let h1 := snd (DynStepper_render hooks hp0) in
  let h2 := snd (DynStepper_render (Some h1) hp) in
  let unchanged :=
    current (props hp) = current (props hp0) /\
    js_length (steps (props hp)) = js_length (steps (props hp0)) /\
    steps_ref hp = steps_ref hp0 /\
    onChange (props hp) = onChange (props hp0) in
  (cell_handle h2 = cell_handle h1 <->
   unchanged /\ handle_ref hp = handle_ref hp0) /\
  (handle_ref hp <> handle_ref hp0 ->
   memo_generation (cell_handle h2) = S (memo_generation (cell_handle h1)))
  /\
  (unchanged ->
   cell_nextStep h2 = cell_nextStep h1 /\
   cell_previousStep h2 = cell_previousStep h1).
Proof.
  intros h1 h2 unchanged.
  set (g1 := cell_goToStep h1). set (n1 := cell_nextStep h1).
  set (v1 := cell_previousStep h1).
  set (g2 := cell_goToStep h2). set (n2 := cell_nextStep h2).
  set (v2 := cell_previousStep h2).
  assert (memo_deps g1 =
          [DArr (steps_ref hp0); DFn (onChange (props hp0))]) as Hg1
    by apply useCallback_deps.
  assert (memo_deps n1 =
          [DNum (current (props hp0));
           DNum (js_length (steps (props hp0)));
           DClosure (memo_generation g1)]) as Hn1
    by apply useCallback_deps.
  assert (memo_deps v1 =
          [DNum (current (props hp0)); DClosure (memo_generation g1)])
    as Hv1 by apply useCallback_deps.
  assert (memo_deps (cell_handle h1) =
          [DClosure (memo_generation g1); DClosure (memo_generation n1);
           DClosure (memo_generation v1); DRef (handle_ref hp0)]) as Hh1
    by apply useCallback_deps.
  assert (memo_generation g2 = memo_generation g1 <->
          steps_ref hp = steps_ref hp0 /\
          onChange (props hp) = onChange (props hp0)) as Hg.
  { subst g2 h2. unfold DynStepper_render.
    cbn [snd option_map cell_goToStep]. fold g1.
    rewrite generation_kept_iff, Hg1. split.
    - intros H. injection H as -> ->. auto.
    - intros (-> & ->). reflexivity. }
  assert (memo_generation n2 = memo_generation n1 <->
          current (props hp) = current (props hp0) /\
          js_length (steps (props hp)) = js_length (steps (props hp0)) /\
          memo_generation g2 = memo_generation g1) as Hn.
  { subst n2 g2 h2. unfold DynStepper_render.
    cbn [snd option_map cell_nextStep cell_goToStep]. fold g1 n1.
    rewrite generation_kept_iff, Hn1. split.
    - intros H. injection H as -> -> ->. auto.
    - intros (-> & -> & ->). reflexivity. }
  assert (memo_generation v2 = memo_generation v1 <->
          current (props hp) = current (props hp0) /\
          memo_generation g2 = memo_generation g1) as Hv.
  { subst v2 g2 h2. unfold DynStepper_render.
    cbn [snd option_map cell_previousStep cell_goToStep]. fold g1 v1.
    rewrite generation_kept_iff, Hv1. split.
    - intros H. injection H as -> ->. auto.
    - intros (-> & ->). reflexivity. }
  assert (cell_handle h2 = cell_handle h1 <->
          memo_generation g2 = memo_generation g1 /\
          memo_generation n2 = memo_generation n1 /\
          memo_generation v2 = memo_generation v1 /\
          handle_ref hp = handle_ref hp0) as Hh.
  { subst g2 n2 v2 h2. unfold DynStepper_render.
    cbn [snd option_map cell_handle cell_goToStep cell_nextStep
         cell_previousStep].
    fold g1 n1 v1. rewrite useCallback_kept_iff, Hh1.
    apply handle_deps_eq. }
  split; [|split].
  - rewrite Hh, Hn, Hv, Hg. subst unchanged. tauto.
  - intros Hnew.
    assert (cell_handle h2 <> cell_handle h1) as Hne
      by (rewrite Hh; tauto).
    subst h2. unfold DynStepper_render in *.
    cbn [snd option_map cell_handle] in *.
    rewrite useCallback_replaced; [reflexivity|].
    intros Hd. apply Hne. now apply useCallback_kept_iff.
  - intros (Hc & Hl & Hr & Ho).
    assert (memo_generation g2 = memo_generation g1) as Hgg
      by (apply Hg; auto).
    split.
    + subst n2 h2. unfold DynStepper_render.
      cbn [snd option_map cell_nextStep]. fold n1.
      apply useCallback_same_generation.
      apply (proj2 Hn). auto.
    + subst v2 h2. unfold DynStepper_render.
      cbn [snd option_map cell_previousStep]. fold v1.
      apply useCallback_same_generation.
      apply (proj2 Hv). auto.
Qed.

End HooksMore.

(* ================================================================= *)
(** ** DynMenuItem: keys, dividers and decorations *)

Module MenuMore.
Import Menu MenuFacts.

(** X16. The key handler of a menu row calls [preventDefault] exactly
    on Enter and Space, also when the row is disabled or has no
    callback; a divider has no key handler.  Any other key makes no
    call. *)
Theorem X16_menu_key_handling (p : DynMenuItemProps) (k : string) :
  (defaultPrevented
     (fire_key (onKeyDown_of (DynMenuItem p)) {| ev_key := k |}) = true <->
   default false (divider p) = false /\ (k = "Enter" \/ k = " ")) /\
  (k <> "Enter" -> k <> " " ->
   activate (DynMenuItem p) (KeyPress k) = Done []).
Proof.
  rewrite <- StepperMore.is_activation_key_spec.
  unfold activate, DynMenuItem.
  destruct (default false (divider p)); simpl.
  - split; [|reflexivity]. split; [discriminate|].
    intros (H & _). discriminate.
  - unfold handleKeyDown. simpl.
    destruct (is_activation_key k) eqn:E; simpl.
    + split; [tauto|]. intros H1 H2.
      apply StepperMore.is_activation_key_spec in E. tauto.
    + split; [|reflexivity]. split; [discriminate|].
      intros (_ & H). discriminate.
Qed.

(** X17. A divider is determined by [className] and [data-testid]
    alone: two dividers that agree on these render the same separator,
    whatever their [onClick], [disabled], [selected], [value], [icon],
    [description], [shortcut] and content. *)
Theorem X17_divider_ignores_the_rest (p q : DynMenuItemProps) :
  default false (divider p) = true ->
  default false (divider q) = true ->
  className p = className q ->
  data_testid p = data_testid q ->
  DynMenuItem p = DynMenuItem q.
Proof.
  intros Hp Hq Hc Ht. unfold DynMenuItem. now rewrite Hp, Hq, Hc, Ht.
Qed.

Lemma X17_divider_ignores_the_rest_witness :
  let p := Examples.divider_item (Some Examples.host_fn) None
             (RElement "svg") in
  let q := Examples.divider_item None (Some true) RUndefined in
  default false (divider p) = true /\
  default false (divider q) = true /\
  className p = className q /\
  data_testid p = data_testid q /\
  DynMenuItem p = DynMenuItem q.
Proof.
  intros p q. repeat (split; [reflexivity|]).
  apply (X17_divider_ignores_the_rest p q); reflexivity.
Defined.

(** X18. What an activation does depends on [divider], [disabled],
    [onClick] and [value] alone: two items that agree on these answer
    every click and every key alike, whatever their [selected], [icon],
    [description], [shortcut], content and classes. *)
Theorem X18_activation_depends_on (p q : DynMenuItemProps) :
  default false (divider p) = default false (divider q) ->
  default false (disabled p) = default false (disabled q) ->
  onClick p = onClick q ->
  value p = value q ->
  forall a, activate (DynMenuItem p) a = activate (DynMenuItem q) a.
Proof.
  intros Hd Hdis Ho Hv a. rewrite !activate_spec.
  now rewrite Hd, Hdis, Ho, Hv.
Qed.

Lemma X18_activation_depends_on_witness :
  let p := Examples.rich_item None in
  let q := Examples.rich_item (Some true) in
  default false (divider p) = default false (divider q) /\
  default false (disabled p) = default false (disabled q) /\
  onClick p = onClick q /\
  value p = value q /\
  activate (DynMenuItem p) PointerClick =
    activate (DynMenuItem q) PointerClick.
Proof.
  intros p q. repeat (split; [reflexivity|]).
  apply (X18_activation_depends_on p q); reflexivity.
Defined.

End MenuMore.
